(** * kuja: an HTTP-transported RPC dispatch engine

    A shallow embedding of the server of package [kuja] (request routing,
    context pooling, dispatch, error rendering, discovery lifecycle) and of
    the gogoproto codec, with the properties of the specification stated
    and settled against that embedding.

    Go strings are byte sequences: they are modelled by [string], whose
    characters are the 256 bytes.  Go maps are modelled by [gmap].  Effects
    on the outside world (the HTTP response writer, the codec, the bound
    method, the discovery collaborator, the logger, spawned goroutines) are
    recorded in order in a trace of events. *)

From Stdlib Require Import ZArith String Ascii List Lia.
From stdpp Require Import base option list gmap strings fin_maps.

Local Open Scope string_scope.

(** ** Go string primitives *)

Module GoString.

(** [len(s)] *)
Definition len (s : string) : nat := String.length s.

(** [s[i:]] for [i <= len(s)] *)
Definition sliceFrom (s : string) (i : nat) : string :=
  String.substring i (len s - i) s.

(** [s[:j]] for [j <= len(s)] *)
Definition sliceTo (s : string) (j : nat) : string :=
  String.substring 0 j s.

(** [strings.HasPrefix(s, prefix)]:
    [len(s) >= len(prefix) && s[0:len(prefix)] == prefix] *)
Definition HasPrefix (s prefix : string) : bool :=
  (len prefix <=? len s)%nat && String.eqb (sliceTo s (len prefix)) prefix.

(** [strings.HasSuffix(s, suffix)]:
    [len(s) >= len(suffix) && s[len(s)-len(suffix):] == suffix] *)
Definition HasSuffix (s suffix : string) : bool :=
  (len suffix <=? len s)%nat
  && String.eqb (sliceFrom s (len s - len suffix)) suffix.

(** [strings.Split(s, ":")]: the pieces of [s] between colons; always at
    least one piece. *)
Fixpoint SplitColon (s : string) : list string :=
  match s with
  | EmptyString => [EmptyString]
  | String c s' =>
      if Ascii.eqb c ":" then EmptyString :: SplitColon s'
      else match SplitColon s' with
           | p :: ps => String c p :: ps
           | [] => [String c EmptyString]
           end
  end.

(** [strings.Join(parts, ":")] *)
Fixpoint JoinColon (parts : list string) : string :=
  match parts with
  | [] => EmptyString
  | [p] => p
  | p :: ps => p ++ ":" ++ JoinColon ps
  end.

End GoString.

(** ** PathRouter: [getServiceMethod] *)

Module PathRouter.
Import GoString.

Definition slash : ascii := "/".

(** The loop [for i := 0; i < len(s); i++] of [getServiceMethod]; [n] is
    the number of iterations left, [len(s) - i]. *)
Fixpoint scan (s : string) (i n : nat) : string * string :=
  match n with
  | O => ("", "")
  | S n' =>
      match String.get i s with
      | Some c =>
          if Ascii.eqb c slash then (sliceTo s i, sliceFrom s (i + 1))
          else scan s (i + 1) n'
      | None => ("", "")
      end
  end.

Definition getServiceMethod (s : string) : string * string :=
  let s := if HasPrefix s "/" then sliceFrom s 1 else s in
  let s := if HasSuffix s "/" then sliceTo s (len s - 1) else s in
  scan s 0 (len s).

(** The test of [ServeHTTP] on the two names. *)
Definition routingFailure (p : string * string) : bool :=
  String.eqb (fst p) "" || String.eqb (snd p) "".

(** *** The router as the specification words it *)

(** Strip one leading slash, when there is one. *)
Definition stripLeading (s : string) : string :=
  match s with
  | String c s' => if Ascii.eqb c slash then s' else s
  | EmptyString => s
  end.

(** Strip one trailing slash, when there is one. *)
Fixpoint stripTrailing (s : string) : string :=
  match s with
  | EmptyString => EmptyString
  | String c EmptyString => if Ascii.eqb c slash then EmptyString else s
  | String c s' => String c (stripTrailing s')
  end.

(** Split at the first slash, when there is one. *)
Fixpoint splitFirst (s : string) : option (string * string) :=
  match s with
  | EmptyString => None
  | String c s' =>
      if Ascii.eqb c slash then Some (EmptyString, s')
      else match splitFirst s' with
           | Some (a, b) => Some (String c a, b)
           | None => None
           end
  end.

Definition route_spec (s : string) : option (string * string) :=
  match splitFirst (stripTrailing (stripLeading s)) with
  | Some (service, method) =>
      if String.eqb service "" || String.eqb method "" then None
      else Some (service, method)
  | None => None
  end.

(** The router of the code, with the failure test of its caller. *)
Definition route (s : string) : option (string * string) :=
  let p := getServiceMethod s in
  if routingFailure p then None else Some p.

Fixpoint noSlash (s : string) : bool :=
  match s with
  | EmptyString => true
  | String c s' => negb (Ascii.eqb c slash) && noSlash s'
  end.

End PathRouter.

(** ** Facts on the string primitives *)

Module GoStringFacts.
Import GoString.

Lemma substring_all (s : string) : String.substring 0 (String.length s) s = s.
Proof. induction s as [|c s IH]; simpl; [reflexivity | now rewrite IH]. Qed.

Lemma substring_none (s : string) : String.substring 0 0 s = "".
Proof. now destruct s. Qed.

(** stdpp keeps [String.append] folded under [simpl]; its two equations
    are used as rewrite rules. *)
Lemma app_nil_l (b : string) : "" ++ b = b.
Proof. reflexivity. Qed.

Lemma app_cons (c : ascii) (a b : string) :
  String c a ++ b = String c (a ++ b).
Proof. reflexivity. Qed.

Lemma length_app (a b : string) :
  String.length (a ++ b) = String.length a + String.length b.
Proof.
  induction a as [|c a IH]; [reflexivity|].
  rewrite app_cons. simpl. now rewrite IH.
Qed.

Lemma app_assoc (a b c : string) : (a ++ b) ++ c = a ++ (b ++ c).
Proof.
  induction a as [|x a IH]; [reflexivity|].
  rewrite !app_cons. now rewrite IH.
Qed.

Lemma app_empty_r (a : string) : a ++ "" = a.
Proof.
  induction a as [|x a IH]; [reflexivity|].
  rewrite app_cons. now rewrite IH.
Qed.

Lemma get_app_at (a b : string) (c : ascii) :
  String.get (String.length a) (a ++ String c b) = Some c.
Proof.
  induction a as [|x a IH]; [reflexivity|].
  rewrite app_cons. simpl. exact IH.
Qed.

Lemma substring_app_l (a b : string) :
  String.substring 0 (String.length a) (a ++ b) = a.
Proof.
  induction a as [|x a IH]; [apply substring_none|].
  rewrite app_cons. simpl. now rewrite IH.
Qed.

Lemma substring_app_r (a b : string) :
  String.substring (String.length a) (String.length b) (a ++ b) = b.
Proof.
  induction a as [|x a IH]; [apply substring_all|].
  rewrite app_cons. simpl. exact IH.
Qed.

Lemma sliceTo_app (a b : string) : sliceTo (a ++ b) (len a) = a.
Proof. apply substring_app_l. Qed.

Lemma sliceFrom_app (a b : string) : sliceFrom (a ++ b) (len a) = b.
Proof.
  unfold sliceFrom, len. rewrite length_app.
  replace (String.length a + String.length b - String.length a)
    with (String.length b) by lia.
  apply substring_app_r.
Qed.

End GoStringFacts.

Module PathRouterFacts.
Import GoString GoStringFacts PathRouter.

Lemma leading_strip (s : string) :
  (if HasPrefix s "/" then sliceFrom s 1 else s) = stripLeading s.
Proof.
  destruct s as [|c s]; [reflexivity|].
  unfold HasPrefix, sliceFrom, sliceTo, stripLeading, len, slash. simpl.
  rewrite substring_none. simpl.
  destruct (Ascii.eqb c "/"); simpl; [|reflexivity].
  rewrite Nat.sub_0_r. apply substring_all.
Qed.

Lemma HasSuffix_cons (c : ascii) (s : string) :
  HasSuffix (String c s) "/" =
  match s with
  | EmptyString => Ascii.eqb c slash
  | _ => HasSuffix s "/"
  end.
Proof.
  destruct s as [|d s].
  - unfold HasSuffix, sliceFrom, len, slash. simpl.
    now destruct (Ascii.eqb c "/").
  - unfold HasSuffix, sliceFrom, len. simpl.
    rewrite !Nat.sub_0_r. reflexivity.
Qed.

Lemma trailing_strip (s : string) :
  (if HasSuffix s "/" then sliceTo s (len s - 1) else s) = stripTrailing s.
Proof.
  induction s as [|c s IH]; [reflexivity|].
  rewrite HasSuffix_cons. destruct s as [|d s].
  - unfold sliceTo, len. simpl. now destruct (Ascii.eqb c slash).
  - change (stripTrailing (String c (String d s)))
      with (String c (stripTrailing (String d s))).
    rewrite <- IH. destruct (HasSuffix (String d s) "/"); [|reflexivity].
    unfold sliceTo, len. simpl. now rewrite !Nat.sub_0_r.
Qed.

Lemma scan_splitFirst (rest pre : string) :
  scan (pre ++ rest) (len pre) (len rest) =
  match splitFirst rest with
  | Some (a, b) => (pre ++ a, b)
  | None => ("", "")
  end.
Proof.
  revert pre. induction rest as [|c rest IH]; intros pre; [reflexivity|].
  cbn [len String.length scan splitFirst]. fold (len pre).
  unfold len at 1. rewrite get_app_at.
  destruct (Ascii.eqb c slash) eqn:Hc.
  - rewrite sliceTo_app, app_empty_r.
    replace (pre ++ String c rest) with ((pre ++ String c "") ++ rest)
      by now rewrite app_assoc.
    replace (len pre + 1) with (len (pre ++ String c ""))
      by (unfold len; rewrite length_app; reflexivity).
    now rewrite sliceFrom_app.
  - replace (pre ++ String c rest) with ((pre ++ String c "") ++ rest)
      by now rewrite app_assoc.
    replace (len pre + 1) with (len (pre ++ String c ""))
      by (unfold len; rewrite length_app; reflexivity).
    fold (len rest). rewrite IH.
    destruct (splitFirst rest) as [[a b]|]; [|reflexivity].
    now rewrite app_assoc.
Qed.

Lemma getServiceMethod_unfold (s : string) :
  getServiceMethod s =
  match splitFirst (stripTrailing (stripLeading s)) with
  | Some p => p
  | None => ("", "")
  end.
Proof.
  unfold getServiceMethod. rewrite leading_strip.
  cbv zeta. rewrite trailing_strip.
  generalize (stripTrailing (stripLeading s)); intros t.
  change t with ("" ++ t) at 1. change 0 with (len "").
  rewrite scan_splitFirst. now destruct (splitFirst t) as [[a b]|].
Qed.

(** What the three steps of the specification's router mean. *)

Lemma stripLeading_slash (t : string) : stripLeading (String slash t) = t.
Proof. reflexivity. Qed.

Lemma stripTrailing_slash (t : string) :
  stripTrailing (t ++ String slash "") = t.
Proof.
  induction t as [|c t IH]; [reflexivity|].
  simpl. rewrite IH. destruct t; reflexivity.
Qed.

Lemma splitFirst_Some (t a b : string) :
  splitFirst t = Some (a, b) <->
  t = a ++ String slash b /\ noSlash a = true.
Proof.
  revert a. induction t as [|c t IH]; intros a; simpl.
  - split; [discriminate|]. intros [H _]. destruct a; discriminate.
  - destruct (Ascii.eqb c slash) eqn:Hc.
    + apply Ascii.eqb_eq in Hc. subst c. split.
      * intros [= <- <-]. now split.
      * intros [H Ha]. destruct a as [|x a]; simpl in *.
        -- now inversion H.
        -- inversion H; subst x. unfold slash in Ha. simpl in Ha.
           discriminate.
    + destruct (splitFirst t) as [[a' b']|] eqn:Ht.
      * split.
        -- intros [= <- <-]. destruct (proj1 (IH a') eq_refl) as [-> Ha].
           simpl. rewrite Hc. now split.
        -- intros [H Ha]. destruct a as [|x a]; simpl in *.
           ++ inversion H; subst c. unfold slash in Hc.
              rewrite Ascii.eqb_refl in Hc. discriminate.
           ++ inversion H; subst x. rewrite Hc in Ha. simpl in Ha.
              assert (Some (a', b') = Some (a, b)) as [= -> ->]
                by (apply IH; now split).
              reflexivity.
      * split; [discriminate|]. intros [H Ha].
        destruct a as [|x a]; simpl in *.
        -- inversion H; subst c. unfold slash in Hc.
           rewrite Ascii.eqb_refl in Hc. discriminate.
        -- inversion H; subst x. rewrite Hc in Ha. simpl in Ha.
           assert (None = Some (a, b)) by (apply IH; now split).
           discriminate.
Qed.

Lemma splitFirst_None (t : string) :
  splitFirst t = None <-> noSlash t = true.
Proof.
  induction t as [|c t IH]; simpl; [tauto|].
  destruct (Ascii.eqb c slash); simpl.
  - split; discriminate.
  - destruct (splitFirst t) as [[a b]|].
    + split; [discriminate|]. intros H. apply IH in H. discriminate.
    + tauto.
Qed.

Lemma route_route_spec (s : string) : route s = route_spec s.
Proof.
  unfold route, route_spec, routingFailure. rewrite getServiceMethod_unfold.
  destruct (splitFirst _) as [[a b]|]; reflexivity.
Qed.

Lemma route_None (s : string) :
  route s = None <->
  String.eqb (getServiceMethod s).1 "" || String.eqb (getServiceMethod s).2 ""
  = true.
Proof.
  unfold route, routingFailure.
  destruct (_ || _); split; intros; congruence.
Qed.

(** C4: for every raw path, [getServiceMethod] returns the two sides of
    the first slash that remains once one leading and one trailing slash
    have been stripped, or two empty names when no slash remains; with the
    test its caller makes (either name empty is a routing failure) it is
    the router of the specification.  The function is a total function of
    its argument alone. *)
Theorem getServiceMethod_route_spec (s : string) :
  let t := stripTrailing (stripLeading s) in
  (forall a b, splitFirst t = Some (a, b) -> getServiceMethod s = (a, b))
  /\ (splitFirst t = None -> getServiceMethod s = ("", ""))
  /\ (noSlash t = true -> route s = None)
  /\ route s = route_spec s.
Proof.
  cbv zeta. rewrite route_route_spec. unfold route_spec.
  rewrite getServiceMethod_unfold. repeat split.
  - intros a b ->. reflexivity.
  - intros ->. reflexivity.
  - intros H. apply splitFirst_None in H. now rewrite H.
Qed.

End PathRouterFacts.

(** ** Errors *)

(** Modelled from the spec: the interface [Errors] and the constructor
    [Error(status, message)] are declared in a file of the package that is
    not among the sources; the specification describes them as "a
    distinguished error carrying an explicit status code [that] is unwrapped
    to (status, message)".  Every other Go [error] value is a [PlainError]
    with the text its [Error()] method returns. *)
Inductive error : Type :=
| StatusError (status : Z) (message : string)
| PlainError (message : string).

(** Modelled from the spec: the constructor [Error(status, message)], which
    [serve] calls and whose declaration is in the same missing file. *)
Definition Error (status : Z) (message : string) : error :=
  StatusError status message.

(** The type assertion [errs, ok := err.(Errors)]: [Some (errs.Status(),
    errs.Error())] when [ok]. *)
Definition asErrors (err : error) : option (Z * string) :=
  match err with
  | StatusError status message => Some (status, message)
  | PlainError _ => None
  end.

(** [err.Error()] *)
Definition errorString (err : error) : string :=
  match err with
  | StatusError _ message => message
  | PlainError message => message
  end.

(** ** The server *)

Section Kuja.

(** [reflect.Value]s (receivers, argument and reply records) and Go
    function values (middleware, audit-log callbacks) are opaque. *)
Context {Value Handler LogErrorFunc : Type}.

(** [snappy.Encode(nil, data)] *)
Variable snappy_Encode : string -> error + string.

(** Modelled from the spec: type [Metadata], declared with [Ctx] outside
    the sources; the code uses it as a map from strings to strings (header
    name to first value). *)
Local Abbreviation Metadata := (gmap string string).

(** A value of [http.Header]: the non-empty list of values [net/http]
    stores under a header name. *)
Record HeaderValues := { first : string; others : list string }.

Record Request := {
  Method : string;
  URLPath : string;
  Header : gmap string HeaderValues;
  Body : string;
}.

(** What one call of the bound method does: the metadata maps of the
    context as it leaves them, the reply record as it fills it, and the
    error it returns. *)
Record CallResult := {
  callReqMetadata : Metadata;
  callRespMetadata : Metadata;
  replyv : Value;
  returned : option error;
}.

(** Modelled from the spec: [methodType] is declared with the registration
    code, outside the sources.  Of its fields [serve] uses the argument and
    reply types (to allocate zero records), [prepareContext] and
    [method.Func]; [Func] is the bound method as [function.Call] applies it
    to the receiver, the prepared context (which exposes the two metadata
    maps) and the argument record. *)
Record methodType := {
  Func : Value -> Metadata -> Metadata -> Value -> CallResult;
}.

(** The codec collaborator, interface [encoder.Encoder], with the contract
    of the specification.  [Decode] reads the body into a fresh argument
    record; [Encode] writes chunks to the writer it is given. *)
Record Encoder := {
  Decode : string -> error + Value;
  Marshal : Value -> error + string;
  Encode : Value -> list string * option error;
}.

(** Modelled from the spec: [service] is declared with the registration
    code, outside the sources; these are the fields [start], [stop] and
    [ServeHTTP] read. *)
Record service := {
  svc_id : string;
  svc_name : string;
  svc_rcvr : Value;
  svc_method : gmap string methodType;
  svc_handlers : list Handler;
}.

(** Modelled from the spec: [Ctx] is declared outside the sources; its
    fields are those [NewServer], [ServeHTTP], [respError] and [serve]
    assign or read.  The field [w] is the response writer of the request
    being served, whose calls are the writer events of the trace. *)
Record Ctx := {
  ReqMetadata : Metadata;
  RespMetadata : Metadata;
  returnValues : list (option (option error));
  logError : LogErrorFunc;
  isResp : bool;
  handlers : list Handler;
  mt : option methodType;
  req : option Request;
  rcvr : option Value;
  encoder : option Encoder;
  snappy : bool;
  ServiceID : string;
  ServiceName : string;
  MethodName : string;
}.

(** The discovery collaborator: [registry.Node] and the interface
    [registry.Registry], whose answers may depend on the calls it has
    received ([RegState]). *)
Record Node := {
  Id : string; Name : string; Host : string; Port : string;
  Address : string;
}.

Context {RegState : Type}.

Record Registry := {
  Register : Node -> RegState -> option error * RegState;
  Deregister : string -> string -> RegState -> option error * RegState;
}.

Record Server := {
  middleware : list Handler;
  serviceMap : gmap string service;
  srv_encoder : Encoder;
  srv_snappy : bool;
  srv_logError : LogErrorFunc;
  registry : option Registry;
}.

(** Everything the server does to the outside world while it serves one
    request. *)
Inductive event : Type :=
| EvHeaderSet (key value : string)      (* w.Header().Set(key, value) *)
| EvWriteHeader (status : Z)            (* w.WriteHeader(status) *)
| EvWrite (data : string)               (* w.Write(data) *)
| EvDecode (body : string)              (* encoder.Decode(req.Body, argv) *)
| EvBodyClose                           (* req.Body.Close() *)
| EvCall (argv : Value)                 (* function.Call(...) *)
| EvMarshal (v : Value)                 (* encoder.Marshal(v) *)
| EvSnappy (data : string)              (* snappy.Encode(nil, data) *)
| EvEncode (v : Value)                  (* encoder.Encode(w, v) *)
| EvGoLogError (fn : LogErrorFunc) (serviceID service method : string)
    (status : Z) (err : error)          (* go ctx.logError(...) *)
| EvPoolGet (fresh : bool)              (* pool.Get(); fresh: pool.New ran *)
| EvPoolPut.                            (* pool.Put(ctx) *)

(** *** Field assignments on a context *)

Definition set_ReqMetadata (m : Metadata) (c : Ctx) : Ctx :=
  {| ReqMetadata := m; RespMetadata := RespMetadata c;
     returnValues := returnValues c; logError := logError c;
     isResp := isResp c; handlers := handlers c; mt := mt c; req := req c;
     rcvr := rcvr c; encoder := encoder c; snappy := snappy c;
     ServiceID := ServiceID c; ServiceName := ServiceName c;
     MethodName := MethodName c |}.

Definition set_isResp (b : bool) (c : Ctx) : Ctx :=
  {| ReqMetadata := ReqMetadata c; RespMetadata := RespMetadata c;
     returnValues := returnValues c; logError := logError c;
     isResp := b; handlers := handlers c; mt := mt c; req := req c;
     rcvr := rcvr c; encoder := encoder c; snappy := snappy c;
     ServiceID := ServiceID c; ServiceName := ServiceName c;
     MethodName := MethodName c |}.

(** The state of the context once [function.Call] has returned and its
    result is stored in [ctx.returnValues]. *)
Definition set_called (r : CallResult) (c : Ctx) : Ctx :=
  {| ReqMetadata := callReqMetadata r; RespMetadata := callRespMetadata r;
     returnValues := [Some (returned r)]; logError := logError c;
     isResp := isResp c; handlers := handlers c; mt := mt c; req := req c;
     rcvr := rcvr c; encoder := encoder c; snappy := snappy c;
     ServiceID := ServiceID c; ServiceName := ServiceName c;
     MethodName := MethodName c |}.

(** Lines 216-225 of [ServeHTTP]. *)
Definition set_dispatch (server : Server) (s : service) (m : methodType)
    (r : Request) (serviceName methodName : string) (c : Ctx) : Ctx :=
  {| ReqMetadata := ReqMetadata c; RespMetadata := RespMetadata c;
     returnValues := returnValues c; logError := logError c;
     isResp := isResp c;
     handlers := svc_handlers s;
     mt := Some m;
     req := Some r;
     rcvr := Some (svc_rcvr s);
     encoder := Some (srv_encoder server);
     snappy := srv_snappy server;
     ServiceID := svc_id s;
     ServiceName := serviceName;
     MethodName := methodName |}.

(** *** The context pool *)

(** [server.pool.New] *)
Definition poolNew (server : Server) : Ctx :=
  {| ReqMetadata := ∅; RespMetadata := ∅;
     returnValues := [None];
     logError := srv_logError server;
     isResp := false;
     handlers := []; mt := None; req := None; rcvr := None;
     encoder := None; snappy := false;
     ServiceID := ""; ServiceName := ""; MethodName := "" |}.

(** [server.pool.Get()]: a context that was put back, when the pool holds
    one (the free list is used last-in first-out, which is what
    [sync.Pool] does for a single worker), and a new one otherwise. *)
Definition poolGet (server : Server) (pool : list Ctx)
    : Ctx * list Ctx * event :=
  match pool with
  | c :: rest => (c, rest, EvPoolGet false)
  | [] => (poolNew server, [], EvPoolGet true)
  end.

(** *** Computations on the context a request owns *)

Inductive result (A : Type) : Type :=
| Ok (a : A) (c : Ctx) (tr : list event)
| Panic (c : Ctx) (tr : list event).
Arguments Ok {A} a c tr.
Arguments Panic {A} c tr.

Definition M (A : Type) : Type := Ctx -> list event -> result A.

#[global] Instance M_ret : MRet M := fun A a c tr => Ok a c tr.
#[global] Instance M_bind : MBind M := fun A B f m c tr =>
  match m c tr with
  | Ok a c' tr' => f a c' tr'
  | Panic c' tr' => Panic c' tr'
  end.

Definition emit (e : event) : M unit := fun c tr => Ok tt c (tr ++ [e]).
Definition getCtx : M Ctx := fun c tr => Ok c c tr.
Definition assign (f : Ctx -> Ctx) : M unit := fun c tr => Ok tt (f c) tr.
Definition panic {A} : M A := fun c tr => Panic c tr.

(** Use of a field that is [nil] until [ServeHTTP] assigns it. *)
Definition deref {A} (o : option A) : M A :=
  match o with
  | Some a => mret a
  | None => panic
  end.

Fixpoint forEach {A} (l : list A) (body : A -> M unit) : M unit :=
  match l with
  | [] => mret tt
  | x :: l' => body x ;; forEach l' body
  end.

(** [for k, v := range m]: Go visits the entries in an unspecified
    order; the model visits them in the order of [map_to_list]. *)
Definition rangeMap {A} (m : gmap string A) : list (string * A) :=
  map_to_list m.

(** How a handler runs is given from outside: [callHandler h r] is the
    call [h(ctx, w, r)]. *)
Variable callHandler : Handler -> Request -> M (option error).

(** *** [respError] *)

Definition respError (err : error) : M unit :=
  match asErrors err with
  | Some (status, message) =>
      assign (set_isResp true) ;;
      ctx ← getCtx ;
      emit (EvGoLogError (logError ctx) (ServiceID ctx) (ServiceName ctx)
              (MethodName ctx) status err) ;;
      emit (EvWriteHeader status) ;;
      emit (EvWrite message)
  | None =>
      assign (set_isResp true) ;;
      ctx ← getCtx ;
      emit (EvGoLogError (logError ctx) (ServiceID ctx) (ServiceName ctx)
              (MethodName ctx) 500 err) ;;
      emit (EvWriteHeader 500) ;;
      emit (EvWrite (errorString err))
  end.

(** *** [serve] *)

Definition serve : M (option error) :=
  ctx ← getCtx ;
  m ← deref (mt ctx) ;
  r ← deref (req ctx) ;
  enc ← deref (encoder ctx) ;
  emit (EvDecode (Body r)) ;;
  emit EvBodyClose ;;
  match Decode enc (Body r) with
  | inl _ => mret (Some (Error 500 "unable to encode response"))
  | inr argv =>
      rc ← deref (rcvr ctx) ;
      emit (EvCall argv) ;;
      let res := Func m rc (ReqMetadata ctx) (RespMetadata ctx) argv in
      assign (set_called res) ;;
      match returned res with
      | Some err => mret (Some err)
      | None =>
          ctx ← getCtx ;
          forEach (rangeMap (RespMetadata ctx))
            (fun '(name, val) => emit (EvHeaderSet name val)) ;;
          if snappy ctx then
            emit (EvMarshal (replyv res)) ;;
            match Marshal enc (replyv res) with
            | inl err => mret (Some err)
            | inr data =>
                emit (EvSnappy data) ;;
                match snappy_Encode data with
                | inl err => mret (Some err)
                | inr data =>
                    assign (set_isResp true) ;;
                    emit (EvHeaderSet "Snappy" "true") ;;
                    emit (EvWriteHeader 200) ;;
                    emit (EvWrite data) ;;
                    mret None
                end
            end
          else
            assign (set_isResp true) ;;
            emit (EvWriteHeader 200) ;;
            emit (EvEncode (replyv res)) ;;
            forEach (fst (Encode enc (replyv res)))
              (fun chunk => emit (EvWrite chunk)) ;;
            mret None
      end
  end.

(** *** [ServeHTTP] *)

(** [for name, vals := range req.Header { ctx.ReqMetadata[name] = vals[0] }] *)
Definition copyHeader (h : gmap string HeaderValues) (md : Metadata)
    : Metadata :=
  map_fold (fun name vals acc => <[name := first vals]> acc) md h.

(** How one call of [ServeHTTP] ends: the free list of the pool, the events
    in order, and whether the call panicked instead of returning. *)
Record Outcome := {
  out_pool : list Ctx;
  out_trace : list event;
  out_panicked : bool;
}.

Definition Returned (pool : list Ctx) (tr : list event) : Outcome :=
  {| out_pool := pool; out_trace := tr; out_panicked := false |}.

Definition LF : string := String "010"%char EmptyString.

(** The two branches of lines 227-235, on the context the request owns. *)
Definition dispatch (s : service) (r : Request) : M unit :=
  match svc_handlers s with
  | h :: _ =>
      err ← callHandler h r ;
      ctx ← getCtx ;
      match err with
      | Some e => if negb (isResp ctx) then respError e else mret tt
      | None => mret tt
      end
  | [] =>
      err ← serve ;
      ctx ← getCtx ;
      match err with
      | Some e => if negb (isResp ctx) then respError e else mret tt
      | None => mret tt
      end
  end.

Definition ServeHTTP (server : Server) (r : Request) (pool : list Ctx)
    : Outcome :=
  if negb (String.eqb (Method r) "POST") then
    Returned pool
      [EvHeaderSet "Content-Type" "text/plain; charset=utf-8";
       EvWriteHeader 405;
       EvWrite ("405 must POST" ++ LF)]
  else
    let '(serviceName, methodName) := PathRouter.getServiceMethod (URLPath r) in
    if String.eqb serviceName "" || String.eqb methodName "" then
      Returned pool
        [EvWriteHeader 404; EvWrite "rpc: can't find service or method"]
    else
      let '(ctx, pool, got) := poolGet server pool in
      let ctx := set_ReqMetadata (copyHeader (Header r) (ReqMetadata ctx)) ctx in
      match serviceMap server !! serviceName with
      | None =>
          Returned pool
            [got; EvWriteHeader 404;
             EvWrite ("rpc: can't find service " ++ serviceName)]
      | Some s =>
          match svc_method s !! methodName with
          | None =>
              Returned pool
                [got; EvWriteHeader 404;
                 EvWrite ("rpc: can't find method " ++ methodName)]
          | Some m =>
              let ctx := set_dispatch server s m r serviceName methodName ctx in
              match dispatch s r ctx [got] with
              | Ok _ ctx tr => Returned (ctx :: pool) (tr ++ [EvPoolPut])
              | Panic _ tr =>
                  {| out_pool := pool; out_trace := tr; out_panicked := true |}
              end
          end
      end.

(** Requests served one after the other by one worker, on the same pool. *)
Fixpoint serveAll (server : Server) (rs : list Request) (pool : list Ctx)
    : list Outcome :=
  match rs with
  | [] => []
  | r :: rs' =>
      let o := ServeHTTP server r pool in
      o :: serveAll server rs' (out_pool o)
  end.

(** *** What the client receives *)

Definition isWriterEvent (e : event) : bool :=
  match e with
  | EvHeaderSet _ _ | EvWriteHeader _ | EvWrite _ => true
  | _ => false
  end.

(** The calls made on the response writer, in order. *)
Definition writerCalls (tr : list event) : list event :=
  List.filter isWriterEvent tr.

(** The status line under the contract of [http.ResponseWriter]: the first
    [WriteHeader] fixes it, and a [Write] that comes first, or a handler
    that returns without writing, sends 200. *)
Fixpoint statusOf (tr : list event) : Z :=
  match tr with
  | [] => 200
  | EvWriteHeader status :: _ => status
  | EvWrite _ :: _ => 200
  | _ :: tr' => statusOf tr'
  end.

(** The bytes written as the body. *)
Fixpoint bodyOf (tr : list event) : string :=
  match tr with
  | [] => ""
  | EvWrite data :: tr' => data ++ bodyOf tr'
  | _ :: tr' => bodyOf tr'
  end.

(** The arguments of the [Header().Set] calls made before the status line
    is sent, in order (what is set later is not transmitted).  These are
    the names as the code passes them: the writer of [net/http] files each
    under the canonical form of its name, a later call replacing an earlier
    one of the same canonical name. *)
Fixpoint headersOf (tr : list event) : list (string * string) :=
  match tr with
  | EvHeaderSet k v :: tr' => (k, v) :: headersOf tr'
  | EvWriteHeader _ :: _ | EvWrite _ :: _ | [] => []
  | _ :: tr' => headersOf tr'
  end.

(** *** Discovery lifecycle: [start] and [stop] *)

Inductive lifecycleEvent : Type :=
| EvRegister (n : Node)                  (* registry.Register(&node) *)
| EvDeregister (name id : string)        (* registry.Deregister(name, id) *)
| EvLogInfo (msg : string)               (* log.Infof *)
| EvLogError (err : error).              (* log.Error(err) *)

(** Lines 123-131 of [start]. *)
Definition hostPort (addr : string) : string * string :=
  let parts := GoString.SplitColon addr in
  if (1 <? length parts)%nat then
    (GoString.JoinColon (take (length parts - 1) parts),
     default "" (parts !! (length parts - 1)%nat))
  else (default "" (parts !! 0%nat), "").

Definition logFailure (err : option error) : list lifecycleEvent :=
  match err with
  | Some e => [EvLogError e]
  | None => []
  end.

Fixpoint registerAll (reg : Registry) (host port addr : string)
    (services : list (string * service)) (st : RegState)
    : list lifecycleEvent * RegState :=
  match services with
  | [] => ([], st)
  | (_, s) :: rest =>
      let node := {| Id := svc_id s; Name := svc_name s; Host := host;
                     Port := port; Address := addr |} in
      let '(err, st) := Register reg node st in
      let '(tr, st) := registerAll reg host port addr rest st in
      (EvRegister node
         :: EvLogInfo ("Registerd " ++ svc_name s ++ " " ++ svc_id s
                         ++ " " ++ addr)
         :: logFailure err ++ tr, st)
  end.

Definition start (server : Server) (addr : string) (st : RegState)
    : list lifecycleEvent * RegState :=
  match registry server with
  | None => ([], st)
  | Some reg =>
      let '(host, port) := hostPort addr in
      registerAll reg host port addr (rangeMap (serviceMap server)) st
  end.

Fixpoint deregisterAll (reg : Registry) (services : list (string * service))
    (st : RegState) : list lifecycleEvent * RegState :=
  match services with
  | [] => ([], st)
  | (_, s) :: rest =>
      let '(err, st) := Deregister reg (svc_name s) (svc_id s) st in
      let '(tr, st) := deregisterAll reg rest st in
      (EvDeregister (svc_name s) (svc_id s)
         :: EvLogInfo ("Deregisterd " ++ svc_name s ++ " " ++ svc_id s)
         :: logFailure err ++ tr, st)
  end.

Definition stop (server : Server) (st : RegState)
    : list lifecycleEvent * RegState :=
  match registry server with
  | Some reg => deregisterAll reg (rangeMap (serviceMap server)) st
  | None => ([], st)
  end.

End Kuja.

Arguments Ok {Value Handler LogErrorFunc A} a c tr.
Arguments Panic {Value Handler LogErrorFunc A} c tr.
Arguments emit {Value Handler LogErrorFunc} e c tr /.
Arguments getCtx {Value Handler LogErrorFunc} c tr /.
Arguments assign {Value Handler LogErrorFunc} f c tr /.
Arguments panic {Value Handler LogErrorFunc A} c tr /.

(** ** Facts on dispatch *)

Section KujaFacts.

Context {Value Handler LogErrorFunc RegState : Type}.
Variable snappy_Encode : string -> error + string.
Variable callHandler :
  Handler -> @Request -> @M Value Handler LogErrorFunc (option error).

Local Abbreviation Ctx := (@Ctx Value Handler LogErrorFunc).
Local Abbreviation event := (@event Value LogErrorFunc).
Local Abbreviation Server := (@Server Value Handler LogErrorFunc RegState).

(** The status [respError] answers with: the declared code of a
    status-carrying error, 500 for any other error. *)
Definition errorStatus (err : error) : Z :=
  match asErrors err with
  | Some (status, _) => status
  | None => 500
  end.

(** The three events of [respError]. *)
Definition errorEvents (c : Ctx) (err : error) : list event :=
  [EvGoLogError (logError c) (ServiceID c) (ServiceName c) (MethodName c)
     (errorStatus err) err;
   EvWriteHeader (errorStatus err);
   EvWrite (errorString err)].

Lemma M_bind_run {A B} (f : A -> M B) (m : M A) (c : Ctx) (tr : list event) :
  (m ≫= f) c tr =
  match m c tr with
  | Ok a c' tr' => f a c' tr'
  | Panic c' tr' => Panic c' tr'
  end.
Proof. reflexivity. Qed.

Lemma M_ret_run {A} (a : A) (c : Ctx) (tr : list event) :
  (mret a : M A) c tr = Ok a c tr.
Proof. reflexivity. Qed.

Ltac run_M :=
  repeat first
    [ rewrite M_bind_run
    | rewrite M_ret_run
    | progress cbn beta iota zeta delta [getCtx emit assign panic deref] ].

Lemma respError_run (err : error) (c : Ctx) (tr : list event) :
  respError err c tr = Ok tt (set_isResp true c) (tr ++ errorEvents c err).
Proof.
  unfold respError, errorEvents, errorStatus.
  destruct err as [status message | message]; cbn [asErrors errorString];
    run_M; now rewrite <- !List.app_assoc.
Qed.

Lemma forEach_emit {A} (f : A -> event) (l : list A) (c : Ctx)
    (tr : list event) :
  forEach l (fun x => emit (f x)) c tr = Ok tt c (tr ++ map f l).
Proof.
  revert tr. induction l as [|x l IH]; intros tr; cbn [forEach map].
  - run_M. now rewrite List.app_nil_r.
  - run_M. rewrite IH. now rewrite <- List.app_assoc.
Qed.

(** Events of the decode-invoke-encode sequence and of error rendering. *)
Definition isDispatchEvent (e : event) : bool :=
  match e with
  | EvDecode _ | EvBodyClose | EvCall _ | EvMarshal _ | EvSnappy _
  | EvEncode _ | EvGoLogError _ _ _ _ _ _ => true
  | _ => false
  end.

Definition isAuditEvent (e : event) : bool :=
  match e with
  | EvGoLogError _ _ _ _ _ _ => true
  | _ => false
  end.

Definition isHeaderSet (e : event) : bool :=
  match e with
  | EvHeaderSet _ _ => true
  | _ => false
  end.

Definition isPoolEvent (e : event) : bool :=
  match e with
  | EvPoolGet _ | EvPoolPut => true
  | _ => false
  end.

Definition headerEvent (kv : string * string) : event :=
  EvHeaderSet kv.1 kv.2.

Lemma forEach_headers (l : list (string * string)) (c : Ctx)
    (tr : list event) :
  forEach l (fun '(name, val) => emit (EvHeaderSet name val)) c tr
  = Ok tt c (tr ++ map headerEvent l).
Proof.
  revert tr. induction l as [|[k v] l IH]; intros tr; cbn [forEach map].
  - run_M. now rewrite List.app_nil_r.
  - run_M. rewrite IH. now rewrite <- List.app_assoc.
Qed.

(** The events of [serve] once the method has returned [nil]: the metadata
    headers, then the reply. *)
Definition replyEvents (enc : Encoder) (compress : bool) (md : gmap string string)
    (reply : Value) (data z : string) : list event :=
  (map headerEvent (rangeMap md)
  ++ (if compress then
        [EvMarshal reply; EvSnappy data; EvHeaderSet "Snappy" "true";
         EvWriteHeader 200; EvWrite z]
      else
        [EvWriteHeader 200; EvEncode reply]
        ++ map EvWrite (fst (Encode enc reply))))%list.

(** The error [serve] returns, read off the answers of the codec, the
    method and the compressor. *)
Definition serveError (enc : Encoder) (m : methodType) (body : string)
    (rc : Value) (c : Ctx) : option error :=
  match Decode enc body with
  | inl _ => Some (Error 500 "unable to encode response")
  | inr argv =>
      let res := Func m rc (ReqMetadata c) (RespMetadata c) argv in
      match returned res with
      | Some err => Some err
      | None =>
          if snappy c then
            match Marshal enc (replyv res) with
            | inl err => Some err
            | inr data =>
                match snappy_Encode data with
                | inl err => Some err
                | inr _ => None
                end
            end
          else None
      end
  end.

(** [serve], run on a context whose dispatch fields are assigned. *)
Lemma serve_run (c : Ctx) (tr : list event) (m : methodType) (r : Request)
    (enc : Encoder) :
  mt c = Some m -> req c = Some r -> encoder c = Some enc ->
  serve snappy_Encode c tr =
  let tr0 := (tr ++ [EvDecode (Body r); EvBodyClose])%list in
  match Decode enc (Body r) with
  | inl _ => Ok (Some (Error 500 "unable to encode response")) c tr0
  | inr argv =>
      match rcvr c with
      | None => Panic c tr0
      | Some rc =>
      let res := Func m rc (ReqMetadata c) (RespMetadata c) argv in
      let c1 := set_called res c in
      let tr1 := (tr0 ++ [EvCall argv])%list in
      match returned res with
      | Some err => Ok (Some err) c1 tr1
      | None =>
          let hs := map headerEvent (rangeMap (callRespMetadata res)) in
          if snappy c then
            match Marshal enc (replyv res) with
            | inl err => Ok (Some err) c1 (tr1 ++ hs ++ [EvMarshal (replyv res)])%list
            | inr data =>
                match snappy_Encode data with
                | inl err =>
                    Ok (Some err) c1
                      (tr1 ++ hs ++ [EvMarshal (replyv res); EvSnappy data])%list
                | inr z =>
                    Ok None (set_isResp true c1)
                      (tr1 ++ replyEvents enc true (callRespMetadata res)
                                (replyv res) data z)%list
                end
            end
          else
            Ok None (set_isResp true c1)
              (tr1 ++ replyEvents enc false (callRespMetadata res)
                        (replyv res) "" "")%list
      end
      end
  end.
Proof.
  intros Hmt Hreq Henc. unfold serve, replyEvents. run_M.
  rewrite Hmt. run_M. rewrite Hreq. run_M. rewrite Henc. run_M.
  destruct (Decode enc (Body r)) as [e | argv].
  { run_M. now rewrite <- !List.app_assoc. }
  run_M. destruct (rcvr c) as [rc|]; run_M.
  2: { now rewrite <- !List.app_assoc. }
  set (res := Func m rc (ReqMetadata c) (RespMetadata c) argv).
  destruct (returned res) as [err|].
  { run_M. now rewrite <- !List.app_assoc. }
  run_M. rewrite forEach_headers. cbn [snappy set_called RespMetadata].
  destruct (snappy c); run_M.
  - destruct (Marshal enc (replyv res)) as [err | data]; run_M.
    { now rewrite <- !List.app_assoc. }
    destruct (snappy_Encode data) as [err | z]; run_M;
      now rewrite <- !List.app_assoc.
  - rewrite forEach_emit. run_M. now rewrite <- !List.app_assoc.
Qed.

(** Reading the response off a trace that starts with header events. *)

Lemma statusOf_headers (l : list (string * string)) (tr : list event) :
  statusOf (map headerEvent l ++ tr) = statusOf tr.
Proof. induction l as [|[k v] l IH]; [reflexivity | exact IH]. Qed.

Lemma bodyOf_headers (l : list (string * string)) (tr : list event) :
  bodyOf (map headerEvent l ++ tr) = bodyOf tr.
Proof. induction l as [|[k v] l IH]; [reflexivity | exact IH]. Qed.

Lemma headersOf_headers (l : list (string * string)) (tr : list event) :
  headersOf (map headerEvent l ++ tr) = (l ++ headersOf tr)%list.
Proof.
  induction l as [|[k v] l IH]; [reflexivity|].
  cbn [map app headersOf headerEvent fst snd]. now rewrite IH.
Qed.

Lemma audit_headers (l : list (string * string)) :
  List.filter isAuditEvent (map headerEvent l) = [].
Proof. induction l as [|[k v] l IH]; [reflexivity | exact IH]. Qed.

Lemma headerSet_headers (l : list (string * string)) :
  List.filter isHeaderSet (map headerEvent l) = map headerEvent l.
Proof.
  induction l as [|[k v] l IH]; [reflexivity|].
  cbn [map List.filter headerEvent isHeaderSet fst snd]. now rewrite IH.
Qed.

Lemma audit_writes (chunks : list string) :
  List.filter isAuditEvent (map EvWrite chunks : list event) = [].
Proof. induction chunks as [|x l IH]; [reflexivity | exact IH]. Qed.

(** The chunks a stream encoder writes, end to end. *)
Definition concatChunks (chunks : list string) : string :=
  fold_right String.append "" chunks.

Lemma bodyOf_writes (chunks : list string) :
  bodyOf (map EvWrite chunks : list event) = concatChunks chunks.
Proof.
  induction chunks as [|x l IH]; [reflexivity|].
  cbn [map bodyOf concatChunks fold_right]. now rewrite IH.
Qed.

(** *** [ServeHTTP] on its paths *)

(** The body of the error the router answers with, as the specification
    words the three routing failures; [None] when the request resolves. *)
Definition routingError (server : Server) (r : Request) : option string :=
  match PathRouter.route_spec (URLPath r) with
  | None => Some "rpc: can't find service or method"
  | Some (serviceName, methodName) =>
      match serviceMap server !! serviceName with
      | None => Some ("rpc: can't find service " ++ serviceName)
      | Some s =>
          match svc_method s !! methodName with
          | None => Some ("rpc: can't find method " ++ methodName)
          | Some _ => None
          end
      end
  end.

Lemma dispatch_no_handlers (s : service) (r : Request) (c : Ctx)
    (tr : list event) :
  svc_handlers s = [] ->
  dispatch snappy_Encode callHandler s r c tr =
  match serve snappy_Encode c tr with
  | Ok (Some e) c' tr' =>
      if isResp c' then Ok tt c' tr' else respError e c' tr'
  | Ok None c' tr' => Ok tt c' tr'
  | Panic c' tr' => Panic c' tr'
  end.
Proof.
  intros Hh. unfold dispatch. rewrite Hh. run_M.
  destruct (serve snappy_Encode c tr) as [[e|] c' tr' | c' tr']; run_M;
    try reflexivity.
  destruct (isResp c'); reflexivity.
Qed.

(** The context a resolved request is dispatched on. *)
Definition dispatchCtx (server : Server) (r : Request) (s : service)
    (m : methodType) (serviceName methodName : string) (c : Ctx) : Ctx :=
  set_dispatch server s m r serviceName methodName
    (set_ReqMetadata (copyHeader (Header r) (ReqMetadata c)) c).

Lemma route_spec_Some (path serviceName methodName : string) :
  PathRouter.route_spec path = Some (serviceName, methodName) ->
  PathRouter.getServiceMethod path = (serviceName, methodName)
  /\ String.eqb serviceName "" || String.eqb methodName "" = false.
Proof.
  rewrite <- PathRouterFacts.route_route_spec.
  unfold PathRouter.route, PathRouter.routingFailure.
  destruct (PathRouter.getServiceMethod path) as [a b]. cbn [fst snd].
  destruct (_ || _) eqn:E; [discriminate|]. intros [= <- <-]. now split.
Qed.

Lemma ServeHTTP_resolved (server : Server) (r : Request) (pool : list Ctx)
    (serviceName methodName : string) (s : service) (m : methodType) :
  Method r = "POST" ->
  PathRouter.route_spec (URLPath r) = Some (serviceName, methodName) ->
  serviceMap server !! serviceName = Some s ->
  svc_method s !! methodName = Some m ->
  ServeHTTP snappy_Encode callHandler server r pool =
  let '(c, rest, got) := poolGet server pool in
  match dispatch snappy_Encode callHandler s r
          (dispatchCtx server r s m serviceName methodName c) [got] with
  | Ok _ c' tr => Returned (c' :: rest) (tr ++ [EvPoolPut])
  | Panic _ tr => {| out_pool := rest; out_trace := tr; out_panicked := true |}
  end.
Proof.
  intros HP Hroute Hs Hm. apply route_spec_Some in Hroute as [Hgsm Hne].
  unfold ServeHTTP. rewrite HP. cbn [String.eqb Ascii.eqb Bool.eqb negb].
  rewrite Hgsm, Hne. destruct (poolGet server pool) as [[c rest] got].
  now rewrite Hs, Hm.
Qed.

(** C9: a request whose method is not POST is answered with status 405 and
    the body "405 must POST" followed by a line feed, whatever its path and
    whatever the server's services; nothing else happens: no routing
    answer, no dispatch, and the pool is left as it was. *)
Theorem ServeHTTP_not_POST (server : Server) (r : Request) (pool : list Ctx) :
  Method r <> "POST" ->
  let o := ServeHTTP snappy_Encode callHandler server r pool in
  out_trace o = [EvHeaderSet "Content-Type" "text/plain; charset=utf-8";
                 EvWriteHeader 405; EvWrite ("405 must POST" ++ LF)]
  /\ statusOf (out_trace o) = 405%Z
  /\ bodyOf (out_trace o) = "405 must POST" ++ LF
  /\ List.filter isDispatchEvent (out_trace o) = []
  /\ List.filter isPoolEvent (out_trace o) = []
  /\ out_pool o = pool
  /\ out_panicked o = false.
Proof.
  intros HP. cbv zeta. unfold ServeHTTP.
  apply String.eqb_neq in HP. rewrite HP. cbn [negb].
  repeat split; reflexivity.
Qed.

(** C3: a POST request that fails to route (a path that lacks a segment, a
    service name that is not registered, a method name the service lacks)
    is answered with status 404 and the exact body of its case; the
    decode-invoke-encode sequence does not start and no audit-log callback
    is spawned. *)
Theorem ServeHTTP_routing_failure (server : Server) (r : Request)
    (pool : list Ctx) (body : string) :
  Method r = "POST" ->
  routingError server r = Some body ->
  let o := ServeHTTP snappy_Encode callHandler server r pool in
  writerCalls (out_trace o) = [EvWriteHeader 404; EvWrite body]
  /\ statusOf (out_trace o) = 404%Z
  /\ bodyOf (out_trace o) = body
  /\ List.filter isDispatchEvent (out_trace o) = []
  /\ List.filter isAuditEvent (out_trace o) = []
  /\ out_panicked o = false.
Proof.
  intros HP Herr. cbv zeta. unfold routingError in Herr. unfold ServeHTTP.
  rewrite HP. cbn [String.eqb Ascii.eqb Bool.eqb negb].
  destruct (PathRouter.route_spec (URLPath r)) as [[sn mn]|] eqn:Hroute.
  - apply route_spec_Some in Hroute as [-> ->].
    destruct (poolGet server pool) as [[c rest] got] eqn:Hget.
    assert (Hgot : isWriterEvent got = false /\ isDispatchEvent got = false
                   /\ isAuditEvent got = false
                   /\ forall tr : list event, statusOf (got :: tr) = statusOf tr
                   /\ bodyOf (got :: tr) = bodyOf tr).
    { unfold poolGet in Hget. destruct pool; inversion Hget; subst got;
        repeat split. }
    destruct Hgot as (Hw & Hd & Ha & Hsb).
    destruct (serviceMap server !! sn) as [s|].
    + destruct (svc_method s !! mn) as [m|]; [discriminate|].
      injection Herr as <-. cbn [out_trace out_panicked Returned].
      unfold writerCalls. cbn [List.filter]. rewrite Hw, Hd, Ha.
      destruct (Hsb [EvWriteHeader 404; EvWrite ("rpc: can't find method " ++ mn)])
        as [-> ->].
      cbn [statusOf bodyOf isWriterEvent isDispatchEvent isAuditEvent].
      now rewrite GoStringFacts.app_empty_r.
    + injection Herr as <-. cbn [out_trace out_panicked Returned].
      unfold writerCalls. cbn [List.filter]. rewrite Hw, Hd, Ha.
      destruct (Hsb [EvWriteHeader 404; EvWrite ("rpc: can't find service " ++ sn)])
        as [-> ->].
      cbn [statusOf bodyOf isWriterEvent isDispatchEvent isAuditEvent].
      now rewrite GoStringFacts.app_empty_r.
  - rewrite <- PathRouterFacts.route_route_spec in Hroute.
    apply PathRouterFacts.route_None in Hroute.
    destruct (PathRouter.getServiceMethod (URLPath r)) as [sn mn].
    cbn [fst snd] in Hroute. rewrite Hroute. injection Herr as <-.
    repeat split.
Qed.

(** On the two returns of lines 204-214 the context taken from the pool is
    not put back. *)
Lemma ServeHTTP_unknown_keeps_context (server : Server) (r : Request)
    (pool : list Ctx) (serviceName methodName : string) :
  Method r = "POST" ->
  PathRouter.route_spec (URLPath r) = Some (serviceName, methodName) ->
  match serviceMap server !! serviceName with
  | None => True
  | Some s => svc_method s !! methodName = None
  end ->
  let o := ServeHTTP snappy_Encode callHandler server r pool in
  out_pool o = tail pool
  /\ List.filter isPoolEvent (out_trace o) = [(poolGet server pool).2].
Proof.
  intros HP Hroute Hlookup. cbv zeta.
  apply route_spec_Some in Hroute as [Hgsm Hne].
  unfold ServeHTTP. rewrite HP. cbn [String.eqb Ascii.eqb Bool.eqb negb].
  rewrite Hgsm, Hne.
  assert (Hp : (poolGet server pool).1.2 = tail pool
               /\ isPoolEvent (poolGet server pool).2 = true)
    by (destruct pool; now split).
  destruct (poolGet server pool) as [[c rest] got]. cbn [fst snd] in Hp.
  destruct Hp as [-> Hgot].
  destruct (serviceMap server !! serviceName) as [s|].
  - rewrite Hlookup. cbn [out_pool out_trace Returned List.filter isPoolEvent].
    now rewrite Hgot.
  - cbn [out_pool out_trace Returned List.filter isPoolEvent].
    now rewrite Hgot.
Qed.

(** The metadata of a context once the header of a request is copied into
    it: the first value of each header of the request, and whatever the
    context held under the other names. *)
Lemma copyHeader_lookup (h : gmap string HeaderValues)
    (md : gmap string string) (k : string) :
  copyHeader h md !! k =
  match h !! k with
  | Some vals => Some (first vals)
  | None => md !! k
  end.
Proof.
  unfold copyHeader.
  apply (map_fold_weak_ind (fun acc h' =>
           acc !! k = match h' !! k with
                      | Some vals => Some (first vals)
                      | None => md !! k
                      end)).
  - now rewrite lookup_empty.
  - intros name vals h' acc Hfresh IH.
    destruct (decide (name = k)) as [->|Hne].
    + now rewrite !lookup_insert_eq.
    + now rewrite !lookup_insert_ne.
Qed.

(** *** The decode-invoke-encode sequence *)

(** An error of the method, on a context whose flag is clear: no header
    is set, nothing is encoded, and the response is the error's status and
    message. *)
Lemma dispatch_method_error (s : service) (r0 : Request) (c : Ctx)
    (tr : list event) (m : methodType) (r : Request) (enc : Encoder)
    (rc argv : Value) (err : error) :
  svc_handlers s = [] ->
  mt c = Some m -> req c = Some r -> encoder c = Some enc ->
  rcvr c = Some rc ->
  isResp c = false ->
  Decode enc (Body r) = inr argv ->
  let res := Func m rc (ReqMetadata c) (RespMetadata c) argv in
  returned res = Some err ->
  dispatch snappy_Encode callHandler s r0 c tr
  = Ok tt (set_isResp true (set_called res c))
      (tr ++ [EvDecode (Body r); EvBodyClose; EvCall argv]
          ++ errorEvents c err).
Proof.
  intros Hh Hmt Hreq Henc Hrc Hflag Hdec res Hret.
  rewrite dispatch_no_handlers by exact Hh.
  rewrite (serve_run c tr m r enc Hmt Hreq Henc). cbv zeta.
  rewrite Hdec, Hrc. fold res. rewrite Hret. cbn [isResp set_called].
  rewrite Hflag, respError_run. now rewrite <- !List.app_assoc.
Qed.

(** C6: when the codec fails to decode the body, [serve] returns the error
    [Error(500, ...)], whose declared status is 500 and which [respError]
    renders as status 500, and the bound method has not been called: the
    only events are the decode attempt and the closing of the body. *)
Theorem serve_decode_failure (c : Ctx) (tr : list event) (m : methodType)
    (r : Request) (enc : Encoder) (e : error) :
  mt c = Some m -> req c = Some r -> encoder c = Some enc ->
  Decode enc (Body r) = inl e ->
  let err := Error 500 "unable to encode response" in
  serve snappy_Encode c tr
  = Ok (Some err) c (tr ++ [EvDecode (Body r); EvBodyClose])
  /\ asErrors err = Some (500%Z, "unable to encode response")
  /\ errorStatus err = 500%Z
  /\ forall (c' : Ctx) (tr' : list event),
       respError err c' tr'
       = Ok tt (set_isResp true c')
           (tr' ++ [EvGoLogError (logError c') (ServiceID c') (ServiceName c')
                      (MethodName c') 500 err;
                    EvWriteHeader 500;
                    EvWrite "unable to encode response"]).
Proof.
  intros Hmt Hreq Henc Hdec. cbv zeta.
  rewrite (serve_run c tr m r enc Hmt Hreq Henc). cbv zeta. rewrite Hdec.
  repeat split. intros c' tr'. now rewrite respError_run.
Qed.

Lemma headerSet_writes (chunks : list string) :
  List.filter isHeaderSet (map EvWrite chunks : list event) = [].
Proof. induction chunks as [|x l IH]; [reflexivity | exact IH]. Qed.

(** C5, amended: when the method returns [nil] and, with compression
    enabled, marshaling and compressing the reply succeed, [serve] first
    calls [Header().Set(name, value)] for each entry of the response
    metadata and answers with status 200; with compression it calls
    [Header().Set("Snappy", "true")] itself after the metadata and before
    the status, and writes the compressed marshaled reply; without
    compression it makes no [Header().Set] call of its own and lets the
    codec stream the reply to the writer.  So the server's own call
    [Header().Set("Snappy", "true")] is made if and only if compression is
    enabled.  The statement is about the calls [serve] makes on the writer,
    with the names as [serve] passes them. *)
Theorem serve_success (c : Ctx) (tr : list event) (m : methodType)
    (r : Request) (enc : Encoder) (rc argv : Value) (data z : string) :
  mt c = Some m -> req c = Some r -> encoder c = Some enc ->
  rcvr c = Some rc ->
  Decode enc (Body r) = inr argv ->
  let res := Func m rc (ReqMetadata c) (RespMetadata c) argv in
  returned res = None ->
  (snappy c = true ->
   Marshal enc (replyv res) = inr data /\ snappy_Encode data = inr z) ->
  let evs := replyEvents enc (snappy c) (callRespMetadata res) (replyv res)
               data z in
  serve snappy_Encode c tr
  = Ok None (set_isResp true (set_called res c))
      (tr ++ [EvDecode (Body r); EvBodyClose; EvCall argv] ++ evs)
  /\ statusOf evs = 200%Z
  /\ headersOf evs
     = (rangeMap (callRespMetadata res)
        ++ (if snappy c then [("Snappy", "true")] else []))%list
  /\ (exists own : list event,
        evs = (map headerEvent (rangeMap (callRespMetadata res)) ++ own)%list
        /\ List.filter isHeaderSet own
           = (if snappy c then [EvHeaderSet "Snappy" "true"] else []))
  /\ bodyOf evs
     = (if snappy c then z else concatChunks (Encode enc (replyv res)).1).
Proof.
  intros Hmt Hreq Henc Hrc Hdec res Hret Hsn evs.
  assert (Hh : headersOf evs
     = (rangeMap (callRespMetadata res)
        ++ (if snappy c then [("Snappy", "true")] else []))%list).
  { unfold evs, replyEvents. rewrite headersOf_headers.
    now destruct (snappy c). }
  split; [|split; [|split; [exact Hh|split]]].
  - rewrite (serve_run c tr m r enc Hmt Hreq Henc). cbv zeta.
    rewrite Hdec, Hrc. fold res. rewrite Hret. unfold evs.
    destruct (snappy c).
    + destruct (Hsn eq_refl) as [-> ->]. now rewrite <- !List.app_assoc.
    + unfold replyEvents. now rewrite <- !List.app_assoc.
  - unfold evs, replyEvents. rewrite statusOf_headers.
    now destruct (snappy c).
  - unfold evs, replyEvents. eexists. split; [reflexivity|].
    destruct (snappy c); [reflexivity|].
    cbn [app List.filter isHeaderSet]. apply headerSet_writes.
  - unfold evs, replyEvents. rewrite bodyOf_headers. destruct (snappy c).
    + cbn [bodyOf]. apply GoStringFacts.app_empty_r.
    + cbn [app bodyOf]. apply bodyOf_writes.
Qed.

(** The error a middleware returns, on a context whose flag is clear, is
    rendered by [respError]. *)
Lemma dispatch_handler_error (s : service) (r0 : Request) (c : Ctx)
    (tr : list event) (h : Handler) (hs : list Handler) (err : error)
    (c' : Ctx) (tr' : list event) :
  svc_handlers s = h :: hs ->
  callHandler h r0 c tr = Ok (Some err) c' tr' ->
  isResp c' = false ->
  dispatch snappy_Encode callHandler s r0 c tr
  = Ok tt (set_isResp true c') (tr' ++ errorEvents c' err).
Proof.
  intros Hh Hcall Hflag. unfold dispatch. rewrite Hh. run_M.
  rewrite Hcall. run_M. rewrite Hflag. cbn [negb]. apply respError_run.
Qed.

(** C7, amended: on a context whose response-sent flag is clear, every
    error the dispatch routine returns (decode failure, error of the
    method, and with compression enabled failure to marshal or to compress
    the reply) makes [respError] spawn the audit-log callback in a
    goroutine of its own, before it writes the response, with exactly the
    service id, service name, method name, the error's declared status or
    500, and the error; it is the only audit event of the request.  When
    [serve] returns no error, which includes the failure of the stream
    encoder when compression is disabled, no callback is spawned.  The
    error the first middleware of a service returns is rendered and audited
    in the same way. *)
Theorem dispatch_audit (s : service) (r0 : Request) (c : Ctx)
    (tr : list event) (m : methodType) (r : Request) (enc : Encoder)
    (rc : Value) :
  mt c = Some m -> req c = Some r -> encoder c = Some enc ->
  rcvr c = Some rc ->
  (svc_handlers s = [] ->
   isResp c = false ->
   exists (c' : Ctx) (evs : list event),
     dispatch snappy_Encode callHandler s r0 c tr = Ok tt c' (tr ++ evs)
     /\ match serveError enc m (Body r) rc c with
        | Some err =>
            List.filter isAuditEvent evs
            = [EvGoLogError (logError c) (ServiceID c) (ServiceName c)
                 (MethodName c) (errorStatus err) err]
            /\ exists pre : list event,
                List.filter isWriterEvent pre
                = List.filter isWriterEvent (List.filter isHeaderSet pre)
                /\ evs = (pre ++ errorEvents c err)%list
        | None => List.filter isAuditEvent evs = []
        end)
  /\ (forall (h : Handler) (hs : list Handler) (err : error) (c' : Ctx)
             (tr' : list event),
        svc_handlers s = h :: hs ->
        callHandler h r0 c tr = Ok (Some err) c' tr' ->
        isResp c' = false ->
        dispatch snappy_Encode callHandler s r0 c tr
        = Ok tt (set_isResp true c')
            (tr' ++ [EvGoLogError (logError c') (ServiceID c')
                       (ServiceName c') (MethodName c') (errorStatus err) err;
                     EvWriteHeader (errorStatus err);
                     EvWrite (errorString err)])).
Proof.
  intros Hmt Hreq Henc Hrc. split.
  2: { intros h hs err c' tr' Hh Hcall Hflag.
       now rewrite (dispatch_handler_error s r0 c tr h hs err c' tr'). }
  intros Hh Hflag.
  rewrite dispatch_no_handlers by exact Hh.
  rewrite (serve_run c tr m r enc Hmt Hreq Henc). cbv zeta.
  unfold serveError. rewrite Hrc.
  destruct (Decode enc (Body r)) as [e | argv].
  { rewrite Hflag, respError_run. eexists _, _. split.
    - now rewrite <- List.app_assoc.
    - split; [reflexivity|]. now exists [EvDecode (Body r); EvBodyClose]. }
  set (res := Func m rc (ReqMetadata c) (RespMetadata c) argv).
  destruct (returned res) as [err|].
  { cbn [isResp set_called]. rewrite Hflag, respError_run. eexists _, _. split.
    - now rewrite <- !List.app_assoc.
    - split; [reflexivity|].
      now exists [EvDecode (Body r); EvBodyClose; EvCall argv]. }
  destruct (snappy c).
  - destruct (Marshal enc (replyv res)) as [err | data].
    { cbn [isResp set_called]. rewrite Hflag, respError_run.
      eexists _, _. split.
      - rewrite <- !List.app_assoc. reflexivity.
      - split.
        + cbn [app List.filter isAuditEvent].
          rewrite !List.filter_app, audit_headers. reflexivity.
        + exists ([EvDecode (Body r); EvBodyClose; EvCall argv]
                  ++ map headerEvent (rangeMap (callRespMetadata res))
                  ++ [EvMarshal (replyv res)])%list.
          split; [|now rewrite <- !List.app_assoc].
          cbn [app List.filter isWriterEvent isHeaderSet].
          rewrite !List.filter_app. cbn [List.filter isWriterEvent isHeaderSet].
          rewrite headerSet_headers. reflexivity. }
    destruct (snappy_Encode data) as [err | z].
    { cbn [isResp set_called]. rewrite Hflag, respError_run.
      eexists _, _. split.
      - rewrite <- !List.app_assoc. reflexivity.
      - split.
        + cbn [app List.filter isAuditEvent].
          rewrite !List.filter_app, audit_headers. reflexivity.
        + exists ([EvDecode (Body r); EvBodyClose; EvCall argv]
                  ++ map headerEvent (rangeMap (callRespMetadata res))
                  ++ [EvMarshal (replyv res); EvSnappy data])%list.
          split; [|now rewrite <- !List.app_assoc].
          cbn [app List.filter isWriterEvent isHeaderSet].
          rewrite !List.filter_app. cbn [List.filter isWriterEvent isHeaderSet].
          rewrite headerSet_headers. reflexivity. }
    eexists _, _. split.
    + rewrite <- !List.app_assoc. reflexivity.
    + unfold replyEvents. cbn [app List.filter isAuditEvent].
      rewrite !List.filter_app, audit_headers. reflexivity.
  - eexists _, _. split.
    + rewrite <- !List.app_assoc. reflexivity.
    + unfold replyEvents. cbn [app List.filter isAuditEvent].
      rewrite !List.filter_app, audit_headers. cbn [app List.filter isAuditEvent].
      apply audit_writes.
Qed.

End KujaFacts.

(** ** Facts on the discovery lifecycle *)

Module LifecycleFacts.
Import GoString.

Definition colon : ascii := ":".

Fixpoint noColon (s : string) : bool :=
  match s with
  | EmptyString => true
  | String c s' => negb (Ascii.eqb c colon) && noColon s'
  end.

(** The listen address split on its last colon, as the specification words
    it: [None] when the address has no colon. *)
Fixpoint splitLastColon (s : string) : option (string * string) :=
  match s with
  | EmptyString => None
  | String c s' =>
      match splitLastColon s' with
      | Some (host, port) => Some (String c host, port)
      | None => if Ascii.eqb c colon then Some (EmptyString, s') else None
      end
  end.

Lemma splitLastColon_Some (s host port : string) :
  splitLastColon s = Some (host, port) ->
  s = host ++ String colon port /\ noColon port = true.
Proof.
  revert host. induction s as [|c s IH]; intros host; cbn [splitLastColon].
  - discriminate.
  - destruct (splitLastColon s) as [[h p]|] eqn:Hs.
    + intros [= <- <-]. destruct (IH h eq_refl) as [-> Hp]. now split.
    + destruct (Ascii.eqb c colon) eqn:Hc; [|discriminate].
      intros [= <- <-]. apply Ascii.eqb_eq in Hc. subst c. split.
      * reflexivity.
      * clear IH. induction s as [|d s IHs]; [reflexivity|].
        cbn [splitLastColon] in Hs. cbn [noColon].
        destruct (splitLastColon s) as [[h p]|]; [discriminate|].
        destruct (Ascii.eqb d colon); [discriminate|]. now apply IHs.
Qed.

Lemma splitLastColon_None (s : string) :
  splitLastColon s = None -> noColon s = true.
Proof.
  induction s as [|c s IH]; [reflexivity|]. cbn [splitLastColon noColon].
  destruct (splitLastColon s) as [[h p]|]; [discriminate|].
  destruct (Ascii.eqb c colon); [discriminate|]. exact IH.
Qed.

Lemma JoinColon_cons_char (c : ascii) (p : string) (ps : list string) :
  JoinColon (String c p :: ps) = String c (JoinColon (p :: ps)).
Proof. destruct ps; reflexivity. Qed.

Lemma JoinColon_cons2 (a b : string) (l : list string) :
  JoinColon (a :: b :: l) = a ++ ":" ++ JoinColon (b :: l).
Proof. reflexivity. Qed.

(** [strings.Split] followed by the two slices of [start], against the
    split on the last colon. *)
Lemma SplitColon_last (s : string) :
  let parts := SplitColon s in
  match splitLastColon s with
  | Some (host, port) =>
      1 < length parts
      /\ JoinColon (take (length parts - 1) parts) = host
      /\ parts !! (length parts - 1) = Some port
  | None => parts = [s]
  end.
Proof.
  induction s as [|c s IH]; [reflexivity|].
  cbn [SplitColon splitLastColon] in *. fold colon.
  destruct (splitLastColon s) as [[h p]|].
  - destruct IH as (Hlen & Hjoin & Hlast).
    destruct (SplitColon s) as [|p0 ps]; [cbn in Hlen; lia|].
    destruct ps as [|p1 ps]; [cbn in Hlen; lia|].
    cbn [length] in *.
    replace (S (S (length ps)) - 1) with (S (length ps)) in * by lia.
    destruct (Ascii.eqb c colon) eqn:Hc.
    + cbn [length]. replace (S (S (S (length ps))) - 1)
        with (S (S (length ps))) by lia.
      repeat split; [lia | | exact Hlast].
      change (take (S (S (length ps))) ("" :: p0 :: p1 :: ps))
        with ("" :: take (S (length ps)) (p0 :: p1 :: ps)).
      cbn [take] in *. rewrite JoinColon_cons2, Hjoin.
      apply Ascii.eqb_eq in Hc. now subst c.
    + cbn [length]. replace (S (S (length ps)) - 1) with (S (length ps)) by lia.
      repeat split; [lia | | exact Hlast].
      cbn [take] in *. rewrite JoinColon_cons_char. now rewrite Hjoin.
  - rewrite IH. destruct (Ascii.eqb c colon) eqn:Hc.
    + repeat split; cbn; lia.
    + reflexivity.
Qed.

Lemma hostPort_splitLastColon (addr : string) :
  hostPort addr =
  match splitLastColon addr with
  | Some (host, port) => (host, port)
  | None => (addr, "")
  end.
Proof.
  unfold hostPort. pose proof (SplitColon_last addr) as H. cbv zeta in H.
  destruct (splitLastColon addr) as [[h p]|].
  - destruct H as (Hlen & -> & ->).
    apply Nat.ltb_lt in Hlen. now rewrite Hlen.
  - now rewrite H.
Qed.

Section Calls.

Context {Value Handler LogErrorFunc RegState : Type}.

Local Abbreviation Server := (@Server Value Handler LogErrorFunc RegState).
Local Abbreviation Registry := (@Registry RegState).
Local Abbreviation service := (@service Value Handler).

Definition nodeOf (host port addr : string) (s : service) : Node :=
  {| Id := svc_id s; Name := svc_name s; Host := host; Port := port;
     Address := addr |}.

(** The [Register] calls of a trace, in order. *)
Fixpoint registerCalls (tr : list lifecycleEvent) : list Node :=
  match tr with
  | [] => []
  | EvRegister n :: tr' => n :: registerCalls tr'
  | _ :: tr' => registerCalls tr'
  end.

(** The [Deregister] calls of a trace, in order. *)
Fixpoint deregisterCalls (tr : list lifecycleEvent) : list (string * string) :=
  match tr with
  | [] => []
  | EvDeregister name id :: tr' => (name, id) :: deregisterCalls tr'
  | _ :: tr' => deregisterCalls tr'
  end.

(** The errors handed to [log.Error], in order. *)
Fixpoint loggedErrors (tr : list lifecycleEvent) : list error :=
  match tr with
  | [] => []
  | EvLogError e :: tr' => e :: loggedErrors tr'
  | _ :: tr' => loggedErrors tr'
  end.

(** The answers the collaborator gives to a sequence of [Register] calls. *)
Fixpoint registerAnswers (reg : Registry) (nodes : list Node) (st : RegState)
    : list (option error) :=
  match nodes with
  | [] => []
  | n :: rest =>
      let '(err, st) := Register reg n st in
      err :: registerAnswers reg rest st
  end.

Fixpoint deregisterAnswers (reg : Registry) (services : list service)
    (st : RegState) : list (option error) :=
  match services with
  | [] => []
  | s :: rest =>
      let '(err, st) := Deregister reg (svc_name s) (svc_id s) st in
      err :: deregisterAnswers reg rest st
  end.

(** The answers that are failures. *)
Definition failures (answers : list (option error)) : list error :=
  omap id answers.

Lemma registerAll_calls (reg : Registry) (host port addr : string)
    (entries : list (string * service)) (st : RegState) :
  let tr := (registerAll reg host port addr entries st).1 in
  registerCalls tr = nodeOf host port addr <$> entries.*2
  /\ loggedErrors tr
     = failures (registerAnswers reg (nodeOf host port addr <$> entries.*2) st).
Proof.
  cbv zeta. revert st. induction entries as [|[name s] rest IH]; intros st.
  - now split.
  - cbn [registerAll fmap list_fmap snd registerAnswers]. fold (nodeOf host port addr s).
    destruct (Register reg (nodeOf host port addr s) st) as [err st1].
    specialize (IH st1).
    destruct (registerAll reg host port addr rest st1) as [tr st2].
    cbn [fst] in *. destruct IH as [IHc IHl].
    cbn [registerCalls loggedErrors]. split.
    + destruct err; cbn [logFailure app registerCalls]; now rewrite IHc.
    + unfold failures in *. destruct err as [e|];
        cbn [logFailure app loggedErrors omap list_omap id]; now rewrite IHl.
Qed.

Lemma deregisterAll_calls (reg : Registry) (entries : list (string * service))
    (st : RegState) :
  let tr := (deregisterAll reg entries st).1 in
  deregisterCalls tr = (fun s => (svc_name s, svc_id s)) <$> entries.*2
  /\ loggedErrors tr = failures (deregisterAnswers reg entries.*2 st).
Proof.
  cbv zeta. revert st. induction entries as [|[name s] rest IH]; intros st.
  - now split.
  - cbn [deregisterAll fmap list_fmap snd deregisterAnswers].
    destruct (Deregister reg (svc_name s) (svc_id s) st) as [err st1].
    specialize (IH st1). destruct (deregisterAll reg rest st1) as [tr st2].
    cbn [fst] in *. destruct IH as [IHc IHl].
    cbn [deregisterCalls loggedErrors]. split.
    + destruct err; cbn [logFailure app deregisterCalls]; now rewrite IHc.
    + unfold failures in *. destruct err as [e|];
        cbn [logFailure app loggedErrors omap list_omap id]; now rewrite IHl.
Qed.

(** C8: with a discovery collaborator configured, [start] calls [Register]
    once for each entry of the service map, with the service's id and name,
    the host and port obtained by splitting the listen address on its last
    colon, and the address; [stop] calls [Deregister] with the name and id
    of each entry.  Each makes as many calls as there are services,
    whatever the collaborator answers, and every failure it answers with is
    handed to [log.Error]. *)
Theorem start_stop_calls (server : Server) (reg : Registry) (addr : string)
    (st st' : RegState) :
  registry server = Some reg ->
  let services := (rangeMap (serviceMap server)).*2 in
  let host := (hostPort addr).1 in
  let port := (hostPort addr).2 in
  let started := (start server addr st).1 in
  let stopped := (stop server st').1 in
  registerCalls started = nodeOf host port addr <$> services
  /\ length (registerCalls started) = size (serviceMap server)
  /\ loggedErrors started
     = failures (registerAnswers reg (nodeOf host port addr <$> services) st)
  /\ deregisterCalls stopped = (fun s => (svc_name s, svc_id s)) <$> services
  /\ length (deregisterCalls stopped) = size (serviceMap server)
  /\ loggedErrors stopped = failures (deregisterAnswers reg services st')
  /\ NoDup (rangeMap (serviceMap server)).*1
  /\ (forall name s, serviceMap server !! name = Some s -> s ∈ services)
  /\ (host, port) = match splitLastColon addr with
                    | Some (h, p) => (h, p)
                    | None => (addr, "")
                    end.
Proof.
  intros Hreg. cbv zeta. unfold start, stop. rewrite Hreg.
  destruct (hostPort addr) as [host port] eqn:Hhp. cbn [fst snd].
  destruct (registerAll_calls reg host port addr
              (rangeMap (serviceMap server)) st) as [Hc Hl].
  destruct (deregisterAll_calls reg (rangeMap (serviceMap server)) st')
    as [Hdc Hdl].
  rewrite Hc, Hl, Hdc, Hdl, !length_fmap. unfold rangeMap.
  rewrite length_map_to_list.
  repeat split; try reflexivity.
  - apply NoDup_fst_map_to_list.
  - intros name s Hs. apply list_elem_of_fmap. exists (name, s).
    split; [reflexivity|]. now apply elem_of_map_to_list.
  - now rewrite <- Hhp, hostPort_splitLastColon.
Qed.

End Calls.

End LifecycleFacts.

(** ** The gogoproto codec *)

Module GoGoProto.

Section Codec.

(** Values that implement [proto.Message], values that do not, and the
    errors of the two libraries the codec calls. *)
Context {Message Other ProtoErr IOErr : Type}.

(** A value of type [interface{}] handed to the codec. *)
Inductive any : Type :=
| IsMessage (m : Message)
| NotMessage (x : Other).

(** Go errors, by the place that made them: each call of [errors.New]
    makes a value distinct from every error of another origin. *)
Inductive error : Type :=
| ErrorsNew (text : string)          (* errors.New(text), in this package *)
| ProtoError (e : ProtoErr)          (* returned by package proto *)
| WriteError (e : IOErr).            (* returned by w.Write *)

(** A call either returns or panics (a method called on a [nil]
    interface value). *)
Inductive outcome (A : Type) : Type :=
| Return (a : A)
| Panicked.
Arguments Return {A} a.
Arguments Panicked {A}.

(** [proto.Marshal(pb)] and [proto.Unmarshal(data, pb)]; [pb] is [None]
    when it is the [nil] interface value. *)
Variable proto_Marshal : option Message -> outcome (ProtoErr + string).
Variable proto_Unmarshal : string -> option Message -> outcome (option ProtoErr).

(** An [io.Writer]: the error [w.Write(data)] returns. *)
Definition Writer : Type := string -> option IOErr.

(** What the codec does besides returning. *)
Inductive effect : Type :=
| Discarded (e : error)       (* an error value built and dropped *)
| Wrote (data : string).      (* w.Write(data) *)

(** [pb, ok := v.(proto.Message)] *)
Definition assertMessage (v : any) : option Message * bool :=
  match v with
  | IsMessage m => (Some m, true)
  | NotMessage _ => (None, false)
  end.

(** [if !ok { errors.New("does not proto message interface") }] *)
Definition checkOk (ok : bool) : list effect :=
  if negb ok then [Discarded (ErrorsNew "does not proto message interface")]
  else [].

Definition Encode (w : Writer) (v : any)
    : list effect * outcome (option error) :=
  let '(pb, ok) := assertMessage v in
  let effs := checkOk ok in
  match proto_Marshal pb with
  | Panicked => (effs, Panicked)
  | Return (inl err) => (effs, Return (Some (ProtoError err)))
  | Return (inr data) =>
      ((effs ++ [Wrote data])%list, Return (WriteError <$> w data))
  end.

(** [r] is the content [buf.ReadFrom(r)] reads into the pooled buffer. *)
Definition Decode (r : string) (v : any)
    : list effect * outcome (option error) :=
  let buf := r in
  let '(pb, ok) := assertMessage v in
  let effs := checkOk ok in
  match proto_Unmarshal buf pb with
  | Panicked => (effs, Panicked)
  | Return err => (effs, Return (ProtoError <$> err))
  end.

Definition Marshal (v : any)
    : list effect * outcome (string * option error) :=
  let '(pb, ok) := assertMessage v in
  let effs := checkOk ok in
  match proto_Marshal pb with
  | Panicked => (effs, Panicked)
  | Return (inl err) => (effs, Return ("", Some (ProtoError err)))
  | Return (inr data) => (effs, Return (data, None))
  end.

Definition Unmarshal (data : string) (v : any)
    : list effect * outcome (option error) :=
  let '(pb, ok) := assertMessage v in
  let effs := checkOk ok in
  match proto_Unmarshal data pb with
  | Panicked => (effs, Panicked)
  | Return err => (effs, Return (ProtoError <$> err))
  end.

(** The error a call reports, when it returns one. *)
Definition reported {A} (res : outcome A) (err : A -> option error)
    : option error :=
  match res with
  | Return a => err a
  | Panicked => None
  end.

Definition mismatch : error := ErrorsNew "does not proto message interface".

(** C10: for a value that is not a [proto.Message], each of [Encode],
    [Decode], [Marshal] and [Unmarshal] builds the error "does not proto
    message interface" and drops it; the error the operation reports, if
    any, is never that error nor any other made by [errors.New]: it comes
    from package proto called on a [nil] message. *)
Theorem mismatch_never_reported (w : Writer) (x : Other) (input : string) :
  let v := NotMessage x in
  (head (Encode w v).1 = Some (Discarded mismatch)
   /\ (Decode input v).1 = [Discarded mismatch]
   /\ (Marshal v).1 = [Discarded mismatch]
   /\ (Unmarshal input v).1 = [Discarded mismatch])
  /\ (forall text,
        reported (Encode w v).2 id <> Some (ErrorsNew text)
        /\ reported (Decode input v).2 id <> Some (ErrorsNew text)
        /\ reported (Marshal v).2 snd <> Some (ErrorsNew text)
        /\ reported (Unmarshal input v).2 id <> Some (ErrorsNew text))
  /\ (Marshal v).2
     = match proto_Marshal None with
       | Panicked => Panicked
       | Return (inl err) => Return ("", Some (ProtoError err))
       | Return (inr data) => Return (data, None)
       end
  /\ (Unmarshal input v).2
     = match proto_Unmarshal input None with
       | Panicked => Panicked
       | Return err => Return (ProtoError <$> err)
       end.
Proof.
  cbv zeta. unfold Encode, Decode, Marshal, Unmarshal, mismatch.
  cbn [assertMessage checkOk negb].
  destruct (proto_Marshal None) as [[perr | data] |];
    destruct (proto_Unmarshal input None) as [[uerr|] |];
    cbn [fst snd reported id app head];
    repeat split; try discriminate; try reflexivity;
    destruct (w data); discriminate.
Qed.

(** The same holds for a value that is a message: no operation ever
    reports an error made by [errors.New]. *)
Lemma errorsNew_never_reported (w : Writer) (v : any) (input text : string) :
  reported (Encode w v).2 id <> Some (ErrorsNew text)
  /\ reported (Decode input v).2 id <> Some (ErrorsNew text)
  /\ reported (Marshal v).2 snd <> Some (ErrorsNew text)
  /\ reported (Unmarshal input v).2 id <> Some (ErrorsNew text).
Proof.
  unfold Encode, Decode, Marshal, Unmarshal.
  destruct (assertMessage v) as [pb ok].
  destruct (proto_Marshal pb) as [[perr | data] |];
    destruct (proto_Unmarshal input pb) as [[uerr|] |];
    cbn [fst snd reported id];
    repeat split; try discriminate;
    destruct (w data); discriminate.
Qed.

End Codec.

End GoGoProto.

(** ** A concrete server *)

Module Demo.

(** Records are strings, there is no middleware, and the one audit-log
    callback is the default one. *)
Definition Value : Type := string.
Definition Handler : Type := Empty_set.
Inductive LogErrorFunc : Type := defaulLogErr.

(** The collaborator's state: the number of calls it has received. *)
Definition RegState : Type := nat.

Definition snappyEncode (data : string) : error + string :=
  inr ("snappy(" ++ data ++ ")").

Definition callHandler (h : Handler) (r : Request)
    : @M Value Handler LogErrorFunc (option error) :=
  match h with end.

(** A codec that rejects the empty body and cannot encode the record
    "chan". *)
Definition codec : @Encoder Value := {|
  Decode body :=
    if String.eqb body "" then inl (PlainError "EOF") else inr body;
  Marshal v :=
    if String.eqb v "chan" then inl (PlainError "unsupported type: chan")
    else inr v;
  Encode v :=
    if String.eqb v "chan" then ([], Some (PlainError "unsupported type: chan"))
    else ([v ++ LF], None);
|}.

Definition method (f : gmap string string -> string -> string * option error)
    : @methodType Value := {|
  Func rc reqMd respMd argv :=
    {| callReqMetadata := reqMd; callRespMetadata := respMd;
       replyv := (f reqMd argv).1; returned := (f reqMd argv).2 |};
|}.

Definition Echo := method (fun _ argv => (argv, None)).
Definition Whoami :=
  method (fun md _ => (default "nobody" (md !! "Authorization"), None)).
Definition Deny := method (fun _ _ => ("", Some (Error 403 "forbidden"))).
Definition Fail := method (fun _ _ => ("", Some (PlainError "boom"))).
Definition Chan := method (fun _ _ => ("chan", None)).

Definition Calc : @service Value Handler := {|
  svc_id := "calc-1"; svc_name := "Calc"; svc_rcvr := "calc";
  svc_method :=
    list_to_map [("Echo", Echo); ("Whoami", Whoami); ("Deny", Deny);
                 ("Fail", Fail); ("Chan", Chan)];
  svc_handlers := [];
|}.

Definition Auth : @service Value Handler := {|
  svc_id := "auth-1"; svc_name := "Auth"; svc_rcvr := "auth";
  svc_method := list_to_map [("Whoami", Whoami)];
  svc_handlers := [];
|}.

(** A collaborator whose second call fails. *)
Definition flaky : @Registry RegState := {|
  Register n st :=
    (if (st =? 1)%nat then Some (PlainError "registry down") else None, S st);
  Deregister name id st :=
    (if (st =? 1)%nat then Some (PlainError "registry down") else None, S st);
|}.

Definition server (compress : bool)
    : @Server Value Handler LogErrorFunc RegState := {|
  middleware := [];
  serviceMap := list_to_map [("Calc", Calc); ("Auth", Auth)];
  srv_encoder := codec;
  srv_snappy := compress;
  srv_logError := defaulLogErr;
  registry := Some flaky;
|}.

Definition request (verb path : string) (header : list (string * string))
    (body : string) : Request := {|
  Method := verb; URLPath := path;
  Header := list_to_map
              (map (fun kv => (kv.1, {| first := kv.2; others := [] |})) header);
  Body := body;
|}.

(** [ServeHTTP] on one request, and on requests served in sequence. *)
Definition handle (compress : bool) (r : Request)
    (pool : list (@Ctx Value Handler LogErrorFunc)) : Outcome :=
  ServeHTTP snappyEncode callHandler (server compress) r pool.

Definition handleAll (compress : bool) (rs : list Request)
    (pool : list (@Ctx Value Handler LogErrorFunc)) : list Outcome :=
  serveAll snappyEncode callHandler (server compress) rs pool.

(** The context of a first request to [Calc.m]. *)
Definition firstCtx (compress : bool) (r : Request) (name : string)
    (m : @methodType Value) : @Ctx Value Handler LogErrorFunc :=
  dispatchCtx (server compress) r Calc m "Calc" name
    (poolNew (server compress)).

End Demo.

Module DemoFacts.
Import Demo.

Example route_plain : PathRouter.getServiceMethod "/Calc/Echo" = ("Calc", "Echo").
Proof. reflexivity. Qed.

Example route_one_slash_each_side :
  PathRouter.getServiceMethod "//a/b//" = ("", "a/b/").
Proof. reflexivity. Qed.

Example route_first_slash : PathRouter.getServiceMethod "a/b/c/" = ("a", "b/c").
Proof. reflexivity. Qed.

Example route_no_slash : PathRouter.getServiceMethod "/abc" = ("", "").
Proof. reflexivity. Qed.

Example hostPort_ipv6 : hostPort "[::1]:8080" = ("[::1]", "8080").
Proof. reflexivity. Qed.

Example hostPort_no_port : hostPort "localhost" = ("localhost", "").
Proof. reflexivity. Qed.

Definition getEcho : Request := request "GET" "/Calc/Echo" [] "hi".
Definition postEcho : Request :=
  request "POST" "/Calc/Echo" [("Authorization", "secret")] "hi".
Definition postEmpty : Request := request "POST" "/Calc/Echo" [] "".
Definition postWhoami : Request := request "POST" "/Calc/Whoami" [] "x".
Definition postDeny : Request := request "POST" "/Calc/Deny" [] "x".
Definition postChan : Request := request "POST" "/Calc/Chan" [] "x".
Definition postNope : Request :=
  request "POST" "/Nope/Echo" [("Authorization", "secret")] "hi".

(** A GET to a registered method is answered 405. *)
Lemma ServeHTTP_not_POST_witness :
  Method getEcho <> "POST"
  /\ statusOf (out_trace (handle false getEcho [])) = 405%Z
  /\ bodyOf (out_trace (handle false getEcho [])) = "405 must POST" ++ LF.
Proof.
  assert (H : Method getEcho <> "POST") by (vm_compute; discriminate).
  split; [exact H|].
  destruct (ServeHTTP_not_POST snappyEncode callHandler (server false)
              getEcho [] H) as (_ & Hs & Hb & _).
  split; [exact Hs | exact Hb].
Defined.

(** A POST to a service that is not registered is answered 404. *)
Lemma ServeHTTP_routing_failure_witness :
  Method postNope = "POST"
  /\ routingError (server false) postNope
     = Some "rpc: can't find service Nope"
  /\ writerCalls (out_trace (handle false postNope []))
     = [EvWriteHeader 404; EvWrite "rpc: can't find service Nope"].
Proof.
  assert (H1 : Method postNope = "POST") by reflexivity.
  assert (H2 : routingError (server false) postNope
               = Some "rpc: can't find service Nope")
    by (vm_compute; reflexivity).
  split; [exact H1|]. split; [exact H2|].
  exact (proj1 (ServeHTTP_routing_failure snappyEncode callHandler
                  (server false) postNope [] _ H1 H2)).
Defined.

(** An empty body does not decode: [serve] returns the 500 error. *)
Lemma serve_decode_failure_witness :
  let c := firstCtx false postEmpty "Echo" Echo in
  Decode codec (Body postEmpty) = inl (PlainError "EOF")
  /\ serve snappyEncode c []
     = Ok (Some (Error 500 "unable to encode response")) c
         [EvDecode ""; EvBodyClose].
Proof.
  cbv zeta.
  assert (H : Decode codec (Body postEmpty) = inl (PlainError "EOF"))
    by reflexivity.
  split; [exact H|].
  exact (proj1 (serve_decode_failure snappyEncode
                  (firstCtx false postEmpty "Echo" Echo) [] Echo postEmpty
                  codec (PlainError "EOF") eq_refl eq_refl eq_refl H)).
Defined.

(** A successful compressed reply. *)
Lemma serve_success_witness :
  let c := firstCtx true postEcho "Echo" Echo in
  returned (Func Echo "calc" (ReqMetadata c) (RespMetadata c) "hi") = None
  /\ statusOf (replyEvents codec true ∅ "hi" "hi" "snappy(hi)"
                 : list (@event Value LogErrorFunc)) = 200%Z
  /\ bodyOf (replyEvents codec true ∅ "hi" "hi" "snappy(hi)"
               : list (@event Value LogErrorFunc)) = "snappy(hi)".
Proof.
  cbv zeta.
  assert (Hret : returned (Func Echo "calc"
                   (ReqMetadata (firstCtx true postEcho "Echo" Echo))
                   (RespMetadata (firstCtx true postEcho "Echo" Echo)) "hi")
                 = None) by reflexivity.
  split; [exact Hret|].
  destruct (serve_success snappyEncode (firstCtx true postEcho "Echo" Echo)
              [] Echo postEcho codec "calc" "hi" "hi" "snappy(hi)"
              eq_refl eq_refl eq_refl eq_refl eq_refl Hret
              (fun _ => conj eq_refl eq_refl))
    as (_ & Hs & _ & _ & Hb).
  split; [exact Hs | exact Hb].
Defined.

(** A method error on a new context is audited. *)
Lemma dispatch_audit_witness :
  let c := firstCtx false postDeny "Deny" Deny in
  isResp c = false
  /\ exists c' evs,
       dispatch snappyEncode callHandler Calc postDeny c [] = Ok tt c' evs
       /\ List.filter isAuditEvent evs
          = [EvGoLogError defaulLogErr "calc-1" "Calc" "Deny" 403
               (Error 403 "forbidden")].
Proof.
  cbv zeta. split; [reflexivity|].
  destruct (proj1 (dispatch_audit snappyEncode callHandler Calc postDeny
                     (firstCtx false postDeny "Deny" Deny) [] Deny postDeny
                     codec "calc" eq_refl eq_refl eq_refl eq_refl)
              eq_refl eq_refl)
    as (c' & evs & Hrun & Haudit).
  exists c', evs. split; [exact Hrun|]. exact (proj1 Haudit).
Defined.

(** Two services, a collaborator whose second call fails. *)
Lemma start_stop_calls_witness :
  registry (server false) = Some flaky
  /\ length (LifecycleFacts.registerCalls (start (server false) ":8080" 0).1) = 2
  /\ length (LifecycleFacts.deregisterCalls (stop (server false) 0).1) = 2.
Proof.
  assert (H : registry (server false) = Some flaky) by reflexivity.
  split; [exact H|].
  destruct (LifecycleFacts.start_stop_calls (server false) flaky ":8080" 0 0 H)
    as (_ & Hr & _ & _ & Hd & _).
  split; [exact Hr | exact Hd].
Defined.

(** C5, as stated, fails: with compression enabled, the method [Chan]
    returns [nil] (the stored return value is the [nil] error) and its
    reply cannot be marshaled; the response has status 500, not 200, and no
    [Snappy] header. *)
Lemma success_not_always_200 :
  let o := handle true postChan [] in
  map returnValues (out_pool o) = [[Some None]]
  /\ srv_snappy (server true) = true
  /\ statusOf (out_trace o) = 500%Z
  /\ statusOf (out_trace o) <> 200%Z
  /\ headersOf (out_trace o) = [].
Proof. vm_compute. repeat split; discriminate. Qed.

(** C7, as stated, fails: without compression, the stream encoder fails
    on the reply of [Chan], a dispatch-time encode failure, and no
    audit-log callback is spawned. *)
Lemma encode_failure_not_audited :
  let o := handle false postChan [] in
  (Encode codec "chan").2 = Some (PlainError "unsupported type: chan")
  /\ out_trace o
     = [EvPoolGet true; EvDecode "x"; EvBodyClose; EvCall "x";
        EvWriteHeader 200; EvEncode "chan"; EvPoolPut]
  /\ List.filter isAuditEvent (out_trace o) = [].
Proof. vm_compute. repeat split. Qed.

(** C1 on the code: a context is neither reset nor always returned.
    (1) A POST to an unregistered service takes the pooled context and
    never puts it back.  (2) After a request that carried an
    [Authorization] header, a request without any header, served on the
    same context, reads that header in its metadata, and the context goes
    back to the pool with the flag and the metadata of both requests. *)
Theorem context_not_reset_nor_returned :
  (let c := poolNew (server false) in
   let o := handle false postNope [c] in
   out_pool o = []
   /\ List.filter isPoolEvent (out_trace o) = [EvPoolGet false])
  /\ (let os := handleAll false [postEcho; postWhoami] [] in
      Header postWhoami = ∅
      /\ map (fun o => bodyOf (out_trace o)) os = ["hi" ++ LF; "secret" ++ LF]
      /\ map (fun o => List.filter isPoolEvent (out_trace o)) os
         = [[EvPoolGet true; EvPoolPut]; [EvPoolGet false; EvPoolPut]]
      /\ map (fun o => map isResp (out_pool o)) os = [[true]; [true]]
      /\ map (fun o => map (fun c => ReqMetadata c !! "Authorization")
                         (out_pool o)) os
         = [[Some "secret"]; [Some "secret"]]).
Proof. vm_compute. repeat split. Qed.

(** C2 on the code: the method [Deny] returns the error of status 403.  On
    a new context the response is 403 with the message as body; on the
    context a successful request has just put back, whose flag is still
    set, nothing is written at all, and the client receives an empty 200. *)
Theorem error_response_lost :
  (let o := handle false postDeny [] in
   writerCalls (out_trace o) = [EvWriteHeader 403; EvWrite "forbidden"])
  /\ (let os := handleAll false [postEcho; postDeny] [] in
      map (fun o => writerCalls (out_trace o)) os
      = [[EvWriteHeader 200; EvWrite ("hi" ++ LF)]; []]
      /\ map (fun o => statusOf (out_trace o)) os = [200%Z; 200%Z]
      /\ map (fun o => bodyOf (out_trace o)) os = ["hi" ++ LF; ""]
      /\ map (fun o => map returnValues (out_pool o)) os
         = [[[Some None]]; [[Some (Some (Error 403 "forbidden"))]]]
      /\ map (fun o => List.filter isAuditEvent (out_trace o)) os = [[]; []]).
Proof. vm_compute. repeat split. Qed.

End DemoFacts.

(** ** More on the path router *)

Module PathRouterMore.
Import GoString GoStringFacts PathRouter PathRouterFacts.

Lemma stripTrailing_app (a b : string) :
  b <> "" -> stripTrailing (a ++ b) = a ++ stripTrailing b.
Proof.
  intros Hb. induction a as [|c a IH]; [reflexivity|].
  rewrite !app_cons. cbn [stripTrailing]. rewrite IH.
  destruct (a ++ b) eqn:E; [|reflexivity].
  destruct a; [|discriminate]. now destruct b.
Qed.

(** A request routes to [(service, method)] exactly when the path, less
    one leading and one trailing slash, is [service/method] with a
    non-empty service name free of slashes and a non-empty method name;
    the method name may contain slashes. *)
Theorem route_Some_iff (s service method : string) :
  route s = Some (service, method) <->
  stripTrailing (stripLeading s) = service ++ String slash method
  /\ noSlash service = true /\ service <> "" /\ method <> "".
Proof.
  rewrite route_route_spec. unfold route_spec.
  set (t := stripTrailing (stripLeading s)).
  destruct (splitFirst t) as [[a b]|] eqn:Hs.
  - pose proof (proj1 (splitFirst_Some t a b) Hs) as [Ht Ha]. split.
    + destruct (String.eqb a "" || String.eqb b "") eqn:E; [discriminate|].
      intros [= <- <-]. apply orb_false_elim in E as [E1 E2].
      apply String.eqb_neq in E1, E2. now repeat split.
    + intros (Ht2 & Ha2 & Hna & Hnb).
      assert (Hs2 : splitFirst t = Some (service, method))
        by (apply splitFirst_Some; now split).
      rewrite Hs in Hs2. injection Hs2 as -> ->.
      apply String.eqb_neq in Hna, Hnb. now rewrite Hna, Hnb.
  - split; [discriminate|]. intros (Ht & Ha & _).
    assert (Hs2 : splitFirst t = Some (service, method))
      by (apply splitFirst_Some; now split).
    rewrite Hs in Hs2. discriminate.
Qed.

(** The path a client builds from a service name without slash and a
    method name is parsed back to that pair: always when the path ends with
    a slash, and without the closing slash when the method name is not
    empty and does not itself end with a slash. *)
Theorem getServiceMethod_of_path (service method : string) :
  noSlash service = true ->
  getServiceMethod
    (String slash (service ++ String slash (method ++ String slash "")))
  = (service, method)
  /\ (method <> "" -> stripTrailing method = method ->
      getServiceMethod (String slash (service ++ String slash method))
      = (service, method)).
Proof.
  intros Hs. split.
  - rewrite getServiceMethod_unfold, stripLeading_slash.
    replace (service ++ String slash (method ++ String slash ""))
      with ((service ++ String slash method) ++ String slash "")
      by (rewrite app_assoc; now rewrite app_cons).
    rewrite stripTrailing_slash.
    assert (H : splitFirst (service ++ String slash method)
                = Some (service, method))
      by (apply splitFirst_Some; now split).
    now rewrite H.
  - intros Hne Hstrip.
    rewrite getServiceMethod_unfold, stripLeading_slash.
    rewrite stripTrailing_app by discriminate.
    assert (Hm : stripTrailing (String slash method) = String slash method).
    { destruct method as [|c m]; [congruence|].
      change (stripTrailing (String slash (String c m)))
        with (String slash (stripTrailing (String c m))).
      now rewrite Hstrip. }
    rewrite Hm.
    assert (H : splitFirst (service ++ String slash method)
                = Some (service, method))
      by (apply splitFirst_Some; now split).
    now rewrite H.
Qed.

End PathRouterMore.

(** ** More on the discovery lifecycle *)

Module LifecycleMore.
Import GoString LifecycleFacts.

Lemma noColon_splitLastColon (s : string) :
  noColon s = true -> splitLastColon s = None.
Proof.
  induction s as [|c s IH]; [reflexivity|]. cbn [noColon splitLastColon].
  intros H. apply andb_prop in H as [Hc Hs]. rewrite (IH Hs).
  now destruct (Ascii.eqb c colon).
Qed.

Lemma splitLastColon_app (host port : string) :
  noColon port = true ->
  splitLastColon (host ++ String colon port) = Some (host, port).
Proof.
  intros Hp. induction host as [|c h IH].
  - rewrite GoStringFacts.app_nil_l. cbn [splitLastColon].
    rewrite (noColon_splitLastColon port Hp). unfold colon.
    now rewrite Ascii.eqb_refl.
  - rewrite GoStringFacts.app_cons. cbn [splitLastColon]. now rewrite IH.
Qed.

(** The host and port [start] derives from the address [host:port] are
    that host and that port whenever the port has no colon; the host may
    contain colons (an IPv6 literal). *)
Theorem hostPort_of_host_port (host port : string) :
  noColon port = true ->
  hostPort (host ++ String colon port) = (host, port).
Proof.
  intros Hp. rewrite hostPort_splitLastColon.
  now rewrite (splitLastColon_app host port Hp).
Qed.

Section Traces.

Context {Value Handler LogErrorFunc RegState : Type}.

Local Abbreviation Server := (@Server Value Handler LogErrorFunc RegState).
Local Abbreviation Registry := (@Registry RegState).
Local Abbreviation service := (@service Value Handler).

(** What [start] does for one service, given the collaborator's answer. *)
Definition registerBlock (host port addr : string) (s : service)
    (answer : option error) : list lifecycleEvent :=
  [EvRegister (nodeOf host port addr s);
   EvLogInfo ("Registerd " ++ svc_name s ++ " " ++ svc_id s ++ " " ++ addr)]
  ++ logFailure answer.

(** What [stop] does for one service, given the collaborator's answer. *)
Definition deregisterBlock (s : service) (answer : option error)
    : list lifecycleEvent :=
  [EvDeregister (svc_name s) (svc_id s);
   EvLogInfo ("Deregisterd " ++ svc_name s ++ " " ++ svc_id s)]
  ++ logFailure answer.

Lemma registerAll_blocks (reg : Registry) (host port addr : string)
    (entries : list (string * service)) (st : RegState) :
  (registerAll reg host port addr entries st).1
  = concat (zip_with (registerBlock host port addr) entries.*2
              (registerAnswers reg (nodeOf host port addr <$> entries.*2) st)).
Proof.
  revert st. induction entries as [|[name s] rest IH]; intros st;
    [reflexivity|].
  cbn [registerAll fmap list_fmap snd registerAnswers].
  fold (nodeOf host port addr s).
  destruct (Register reg (nodeOf host port addr s) st) as [err st1].
  specialize (IH st1).
  destruct (registerAll reg host port addr rest st1) as [tr st2].
  cbn [fst zip_with concat] in *. now rewrite <- IH.
Qed.

Lemma deregisterAll_blocks (reg : Registry)
    (entries : list (string * service)) (st : RegState) :
  (deregisterAll reg entries st).1
  = concat (zip_with deregisterBlock entries.*2
              (deregisterAnswers reg entries.*2 st)).
Proof.
  revert st. induction entries as [|[name s] rest IH]; intros st;
    [reflexivity|].
  cbn [deregisterAll fmap list_fmap snd deregisterAnswers].
  destruct (Deregister reg (svc_name s) (svc_id s) st) as [err st1].
  specialize (IH st1). destruct (deregisterAll reg rest st1) as [tr st2].
  cbn [fst zip_with concat] in *. now rewrite <- IH.
Qed.

(** The whole log of [start] and of [stop]: for each service in turn the
    call, then the line "Registerd ..." (or "Deregisterd ..."), which is
    written whether or not the call failed, then the error when the call
    failed. *)
Theorem start_stop_trace (server : Server) (reg : Registry) (addr : string)
    (st st' : RegState) :
  registry server = Some reg ->
  let services := (rangeMap (serviceMap server)).*2 in
  let host := (hostPort addr).1 in
  let port := (hostPort addr).2 in
  (start server addr st).1
  = concat (zip_with (registerBlock host port addr) services
              (registerAnswers reg (nodeOf host port addr <$> services) st))
  /\ (stop server st').1
     = concat (zip_with deregisterBlock services
                 (deregisterAnswers reg services st')).
Proof.
  intros Hreg. cbv zeta. unfold start, stop. rewrite Hreg.
  destruct (hostPort addr) as [host port]. cbn [fst snd].
  now rewrite registerAll_blocks, deregisterAll_blocks.
Qed.


End Traces.

End LifecycleMore.

(** ** More on request handling *)

Section KujaMore.

Context {Value Handler LogErrorFunc RegState : Type}.
Variable snappy_Encode : string -> error + string.
Variable callHandler :
  Handler -> @Request -> @M Value Handler LogErrorFunc (option error).

Local Abbreviation Ctx := (@Ctx Value Handler LogErrorFunc).
Local Abbreviation event := (@event Value LogErrorFunc).
Local Abbreviation Server := (@Server Value Handler LogErrorFunc RegState).

Definition isWriteHeader (e : event) : bool :=
  match e with
  | EvWriteHeader _ => true
  | _ => false
  end.

Definition isDecode (e : event) : bool :=
  match e with
  | EvDecode _ => true
  | _ => false
  end.

Definition isBodyClose (e : event) : bool :=
  match e with
  | EvBodyClose => true
  | _ => false
  end.

Definition isCall (e : event) : bool :=
  match e with
  | EvCall _ => true
  | _ => false
  end.

(** The events of a computation, whether it returns or panics. *)
Definition resultTrace {A} (res : @result Value Handler LogErrorFunc A)
    : list event :=
  match res with
  | Ok _ _ tr => tr
  | Panic _ tr => tr
  end.

Lemma filter_map_none {A} (p : event -> bool) (f : A -> event) (l : list A) :
  (forall x, p (f x) = false) -> List.filter p (map f l) = [].
Proof.
  intros Hp. induction l as [|x l IH]; [reflexivity|].
  cbn [map List.filter]. now rewrite Hp.
Qed.

Lemma filter_headers_none (p : event -> bool) (l : list (string * string)) :
  (forall k v, p (EvHeaderSet k v) = false) ->
  List.filter p (map headerEvent l) = [].
Proof. intros Hp. apply filter_map_none. intros [k v]. apply Hp. Qed.

Lemma filter_writes_none (p : event -> bool) (chunks : list string) :
  (forall data, p (EvWrite data) = false) ->
  List.filter p (map EvWrite chunks : list event) = [].
Proof. intros Hp. now apply filter_map_none. Qed.

(** [serve] decodes once and closes the body once, right after the decode
    attempt and also when decoding failed; it calls the bound method at
    most once, with the decoded argument, and only when decoding
    succeeded. *)
Theorem serve_decode_close_call (c : Ctx) (tr : list event) (m : methodType)
    (r : Request) (enc : Encoder) :
  mt c = Some m -> req c = Some r -> encoder c = Some enc ->
  exists rest : list event,
    resultTrace (serve snappy_Encode c tr)
    = (tr ++ [EvDecode (Body r); EvBodyClose] ++ rest)%list
    /\ List.filter isDecode rest = []
    /\ List.filter isBodyClose rest = []
    /\ List.filter isCall rest
       = match Decode enc (Body r), rcvr c with
         | inr argv, Some _ => [EvCall argv]
         | _, _ => []
         end.
Proof.
  intros Hmt Hreq Henc.
  rewrite (serve_run snappy_Encode c tr m r enc Hmt Hreq Henc). cbv zeta.
  destruct (Decode enc (Body r)) as [e | argv].
  { exists []. cbn [resultTrace]. now rewrite List.app_nil_r. }
  destruct (rcvr c) as [rc|].
  2: { exists []. cbn [resultTrace]. now rewrite List.app_nil_r. }
  set (res := Func m rc (ReqMetadata c) (RespMetadata c) argv).
  assert (Hd : forall l, List.filter isDecode (map headerEvent l) = [])
    by (intros l; now apply filter_headers_none).
  assert (Hb : forall l, List.filter isBodyClose (map headerEvent l) = [])
    by (intros l; now apply filter_headers_none).
  assert (Hc : forall l, List.filter isCall (map headerEvent l) = [])
    by (intros l; now apply filter_headers_none).
  destruct (returned res) as [err|].
  { exists [EvCall argv]. cbn [resultTrace]. now rewrite <- !List.app_assoc. }
  destruct (snappy c).
  - destruct (Marshal enc (replyv res)) as [err | data].
    { eexists (EvCall argv :: map headerEvent _ ++ [EvMarshal (replyv res)])%list.
      cbn [resultTrace]. split; [now rewrite <- !List.app_assoc|].
      cbn [List.filter isDecode isBodyClose isCall].
      rewrite !List.filter_app, Hd, Hb, Hc. now repeat split. }
    destruct (snappy_Encode data) as [err | z].
    { eexists (EvCall argv :: map headerEvent _
                 ++ [EvMarshal (replyv res); EvSnappy data])%list.
      cbn [resultTrace]. split; [now rewrite <- !List.app_assoc|].
      cbn [List.filter isDecode isBodyClose isCall].
      rewrite !List.filter_app, Hd, Hb, Hc. now repeat split. }
    eexists (EvCall argv :: replyEvents enc true _ (replyv res) data z).
    cbn [resultTrace]. split; [now rewrite <- !List.app_assoc|].
    unfold replyEvents. cbn [List.filter isDecode isBodyClose isCall].
    rewrite !List.filter_app, Hd, Hb, Hc. now repeat split.
  - eexists (EvCall argv :: replyEvents enc false _ (replyv res) "" "").
    cbn [resultTrace]. split; [now rewrite <- !List.app_assoc|].
    unfold replyEvents. cbn [List.filter isDecode isBodyClose isCall].
    rewrite !List.filter_app, Hd, Hb, Hc.
    cbn [List.filter isDecode isBodyClose isCall app].
    rewrite !filter_writes_none by reflexivity. now repeat split.
Qed.

Ltac step_M :=
  repeat first
    [ rewrite M_bind_run
    | rewrite M_ret_run
    | progress cbn beta iota zeta delta [getCtx emit assign panic deref] ].

Lemma serve_nil_panics (c : Ctx) (tr : list event) :
  mt c = None \/ req c = None \/ encoder c = None ->
  serve snappy_Encode c tr = Panic c tr.
Proof.
  intros H. unfold serve. step_M.
  destruct (mt c) as [m|]; step_M; [|reflexivity].
  destruct (req c) as [r|]; step_M; [|reflexivity].
  destruct (encoder c) as [enc|]; step_M; [|reflexivity].
  destruct H as [H|[H|H]]; discriminate.
Qed.

(** [serve] changes nothing of the context but the two metadata maps, the
    stored return values and the response-sent flag; it sets the flag
    exactly when it returns [nil] (the reply has been written) and never
    clears it. *)
Theorem serve_keeps_fields (c : Ctx) (tr : list event) (res : option error)
    (c' : Ctx) (tr' : list event) :
  serve snappy_Encode c tr = Ok res c' tr' ->
  (logError c' = logError c /\ handlers c' = handlers c /\ mt c' = mt c
   /\ req c' = req c /\ rcvr c' = rcvr c /\ encoder c' = encoder c
   /\ snappy c' = snappy c /\ ServiceID c' = ServiceID c
   /\ ServiceName c' = ServiceName c /\ MethodName c' = MethodName c)
  /\ isResp c' = match res with
                 | None => true
                 | Some _ => isResp c
                 end.
Proof.
  destruct (mt c) as [m|] eqn:Hmt.
  2: { rewrite serve_nil_panics by now left. discriminate. }
  destruct (req c) as [r|] eqn:Hreq.
  2: { rewrite serve_nil_panics by (right; now left). discriminate. }
  destruct (encoder c) as [enc|] eqn:Henc.
  2: { rewrite serve_nil_panics by (right; now right). discriminate. }
  rewrite (serve_run snappy_Encode c tr m r enc Hmt Hreq Henc). cbv zeta.
  destruct (Decode enc (Body r)) as [e | argv].
  { intros [= <- <- <-]. now rewrite Hmt, Hreq, Henc. }
  destruct (rcvr c) as [rc|] eqn:Hrc; [|discriminate].
  set (res1 := Func m rc (ReqMetadata c) (RespMetadata c) argv).
  destruct (returned res1) as [err|].
  { intros [= <- <- <-]. cbn. now rewrite Hmt, Hreq, Henc, Hrc. }
  destruct (snappy c) eqn:Hsn.
  - destruct (Marshal enc (replyv res1)) as [err | data].
    { intros [= <- <- <-]. cbn. now rewrite Hmt, Hreq, Henc, Hrc, Hsn. }
    destruct (snappy_Encode data) as [err | z];
      intros [= <- <- <-]; cbn; now rewrite Hmt, Hreq, Henc, Hrc, Hsn.
  - intros [= <- <- <-]. cbn. now rewrite Hmt, Hreq, Henc, Hrc, Hsn.
Qed.

(** *** A resolved request on a service without middleware *)

(** How [ServeHTTP] ends once [serve] has returned [err] on the context
    [cx]. *)
Definition failed (c0 c cx : Ctx) (rest : list Ctx) (tr : list event)
    (err : error) : Outcome :=
  if isResp c0 then Returned (cx :: rest) (tr ++ [EvPoolPut])
  else Returned (set_isResp true cx :: rest)
         (tr ++ errorEvents c err ++ [EvPoolPut]).

Lemma ServeHTTP_no_middleware (server : Server) (r : Request)
    (pool : list Ctx) (serviceName methodName : string) (s : service)
    (m : methodType) :
  Method r = "POST" ->
  PathRouter.route_spec (URLPath r) = Some (serviceName, methodName) ->
  serviceMap server !! serviceName = Some s ->
  svc_method s !! methodName = Some m ->
  svc_handlers s = [] ->
  ServeHTTP snappy_Encode callHandler server r pool =
  let c0 := (poolGet server pool).1.1 in
  let rest := (poolGet server pool).1.2 in
  let got := (poolGet server pool).2 in
  let c := dispatchCtx server r s m serviceName methodName c0 in
  let enc := srv_encoder server in
  let tr0 := [got; EvDecode (Body r); EvBodyClose] in
  match Decode enc (Body r) with
  | inl _ => failed c0 c c rest tr0 (Error 500 "unable to encode response")
  | inr argv =>
      let res := Func m (svc_rcvr s) (ReqMetadata c) (RespMetadata c) argv in
      let c1 := set_called res c in
      let tr1 := (tr0 ++ [EvCall argv])%list in
      let hs := map headerEvent (rangeMap (callRespMetadata res)) in
      match returned res with
      | Some err => failed c0 c c1 rest tr1 err
      | None =>
          if srv_snappy server then
            match Marshal enc (replyv res) with
            | inl err =>
                failed c0 c c1 rest (tr1 ++ hs ++ [EvMarshal (replyv res)]) err
            | inr data =>
                match snappy_Encode data with
                | inl err =>
                    failed c0 c c1 rest
                      (tr1 ++ hs ++ [EvMarshal (replyv res); EvSnappy data]) err
                | inr z =>
                    Returned (set_isResp true c1 :: rest)
                      (tr1 ++ replyEvents enc true (callRespMetadata res)
                                (replyv res) data z ++ [EvPoolPut])
                end
            end
          else
            Returned (set_isResp true c1 :: rest)
              (tr1 ++ replyEvents enc false (callRespMetadata res)
                        (replyv res) "" "" ++ [EvPoolPut])
      end
  end.
Proof.
  intros HP Hroute Hs Hm Hh.
  rewrite (ServeHTTP_resolved snappy_Encode callHandler server r pool
             serviceName methodName s m HP Hroute Hs Hm).
  destruct (poolGet server pool) as [[c0 rest] got]. cbn [fst snd]. cbv zeta.
  rewrite dispatch_no_handlers by exact Hh.
  set (c := dispatchCtx server r s m serviceName methodName c0).
  rewrite (serve_run snappy_Encode c [got] m r (srv_encoder server)
             eq_refl eq_refl eq_refl).
  cbv zeta.
  change (rcvr c) with (Some (svc_rcvr s)).
  change (snappy c) with (srv_snappy server).
  assert (Hfl0 : isResp c = isResp c0) by reflexivity.
  assert (Hfl : forall x, isResp (set_called x c) = isResp c0) by reflexivity.
  assert (Hev : forall x err, errorEvents (set_called x c) err = errorEvents c err)
    by reflexivity.
  unfold failed.
  destruct (Decode (srv_encoder server) (Body r)) as [e | argv].
  { rewrite Hfl0. destruct (isResp c0); [reflexivity|].
    rewrite respError_run. now rewrite <- !List.app_assoc. }
  cbn iota.
  set (res := Func m (svc_rcvr s) (ReqMetadata c) (RespMetadata c) argv).
  destruct (returned res) as [err|].
  { rewrite Hfl. destruct (isResp c0); [now rewrite <- !List.app_assoc|].
    rewrite respError_run, Hev. now rewrite <- !List.app_assoc. }
  destruct (srv_snappy server).
  - destruct (Marshal (srv_encoder server) (replyv res)) as [err | data].
    { rewrite Hfl. destruct (isResp c0); [now rewrite <- !List.app_assoc|].
      rewrite respError_run, Hev. now rewrite <- !List.app_assoc. }
    destruct (snappy_Encode data) as [err | z].
    { rewrite Hfl. destruct (isResp c0); [now rewrite <- !List.app_assoc|].
      rewrite respError_run, Hev. now rewrite <- !List.app_assoc. }
    now rewrite <- !List.app_assoc.
  - now rewrite <- !List.app_assoc.
Qed.

Ltac served_cases :=
  cbv zeta;
  destruct (Decode _ _) as [?e | ?argv];
  [ | destruct (returned _) as [?err|];
      [ | destruct (srv_snappy _);
          [ destruct (Marshal _ _) as [?err | ?data];
            [ | destruct (snappy_Encode _) as [?err | ?z] ]
          | ] ] ].

Lemma poolGet_rest (server : Server) (pool : list Ctx) :
  (poolGet server pool).1.2 = tail pool.
Proof. now destruct pool. Qed.

Lemma poolGet_event (server : Server) (pool : list Ctx) :
  (poolGet server pool).2 = EvPoolGet (bool_decide (pool = [])).
Proof. now destruct pool. Qed.

(** A POST request that does not resolve, in full. *)
Lemma ServeHTTP_unresolved (server : Server) (r : Request) (pool : list Ctx)
    (body : string) :
  Method r = "POST" ->
  routingError server r = Some body ->
  ServeHTTP snappy_Encode callHandler server r pool =
  match PathRouter.route_spec (URLPath r) with
  | None => Returned pool [EvWriteHeader 404; EvWrite body]
  | Some _ =>
      Returned (tail pool)
        [(poolGet server pool).2; EvWriteHeader 404; EvWrite body]
  end.
Proof.
  intros HP Herr. unfold routingError in Herr. unfold ServeHTTP.
  rewrite HP. cbn [String.eqb Ascii.eqb Bool.eqb negb].
  destruct (PathRouter.route_spec (URLPath r)) as [[sn mn]|] eqn:Hroute.
  - apply route_spec_Some in Hroute as [-> ->].
    rewrite <- (poolGet_rest server pool).
    destruct (poolGet server pool) as [[c rest] got]. cbn [fst snd].
    destruct (serviceMap server !! sn) as [s|].
    + destruct (svc_method s !! mn) as [m|]; [discriminate|].
      now injection Herr as <-.
    + now injection Herr as <-.
  - rewrite <- PathRouterFacts.route_route_spec in Hroute.
    apply PathRouterFacts.route_None in Hroute.
    destruct (PathRouter.getServiceMethod (URLPath r)) as [sn mn].
    cbn [fst snd] in Hroute. rewrite Hroute. now injection Herr as <-.
Qed.

Lemma routingError_None (server : Server) (r : Request) :
  routingError server r = None ->
  exists serviceName methodName s m,
    PathRouter.route_spec (URLPath r) = Some (serviceName, methodName)
    /\ serviceMap server !! serviceName = Some s
    /\ svc_method s !! methodName = Some m.
Proof.
  unfold routingError.
  destruct (PathRouter.route_spec (URLPath r)) as [[sn mn]|]; [|discriminate].
  destruct (serviceMap server !! sn) as [s|] eqn:Hs; [|discriminate].
  destruct (svc_method s !! mn) as [m|] eqn:Hm; [|discriminate].
  intros _. now exists sn, mn, s, m.
Qed.

Lemma count_app (p : event -> bool) (a b : list event) :
  length (List.filter p (a ++ b))
  = length (List.filter p a) + length (List.filter p b).
Proof. now rewrite List.filter_app, length_app. Qed.

Lemma count_headers (l : list (string * string)) :
  length (List.filter isWriteHeader (map headerEvent l)) = 0.
Proof. now rewrite filter_headers_none. Qed.

Lemma count_writes (chunks : list string) :
  length (List.filter isWriteHeader (map EvWrite chunks : list event)) = 0.
Proof. now rewrite filter_writes_none. Qed.

(** On a server whose services have no middleware, [ServeHTTP] never
    panics and calls [WriteHeader] at most once per request, whatever the
    request and the pooled contexts; it calls it exactly once when the
    context it takes from the pool has a clear response-sent flag. *)
Theorem ServeHTTP_one_WriteHeader (server : Server) (r : Request)
    (pool : list Ctx) :
  (forall name s, serviceMap server !! name = Some s -> svc_handlers s = []) ->
  let o := ServeHTTP snappy_Encode callHandler server r pool in
  out_panicked o = false
  /\ length (List.filter isWriteHeader (out_trace o)) <= 1
  /\ (isResp (poolGet server pool).1.1 = false ->
      length (List.filter isWriteHeader (out_trace o)) = 1).
Proof.
  intros Hnomw. cbv zeta.
  destruct (String.eqb_spec (Method r) "POST") as [HP|HP].
  2: { unfold ServeHTTP. apply String.eqb_neq in HP. rewrite HP.
       cbn. repeat split; lia. }
  destruct (routingError server r) as [body|] eqn:Herr.
  { rewrite (ServeHTTP_unresolved server r pool body HP Herr).
    rewrite poolGet_event.
    destruct (PathRouter.route_spec (URLPath r)); cbn; repeat split; lia. }
  apply routingError_None in Herr as (sn & mn & s & m & Hroute & Hs & Hm).
  rewrite (ServeHTTP_no_middleware server r pool sn mn s m HP Hroute Hs Hm
             (Hnomw sn s Hs)).
  rewrite poolGet_event. unfold failed, replyEvents.
  served_cases; destruct (isResp (poolGet server pool).1.1);
    cbn [out_panicked out_trace Returned];
    rewrite ?count_app, ?count_headers, ?count_writes;
    cbn; rewrite ?count_headers, ?count_writes; repeat split;
    try lia; try discriminate.
Qed.

(** After a resolved request on a service without middleware the context
    is back in the pool with its response-sent flag set, whether the
    request succeeded or failed. *)
Theorem ServeHTTP_puts_back_flagged (server : Server) (r : Request)
    (pool : list Ctx) (serviceName methodName : string) (s : service)
    (m : methodType) :
  Method r = "POST" ->
  PathRouter.route_spec (URLPath r) = Some (serviceName, methodName) ->
  serviceMap server !! serviceName = Some s ->
  svc_method s !! methodName = Some m ->
  svc_handlers s = [] ->
  exists c' : Ctx,
    out_pool (ServeHTTP snappy_Encode callHandler server r pool)
    = c' :: tail pool
    /\ isResp c' = true.
Proof.
  intros HP Hroute Hs Hm Hh.
  rewrite (ServeHTTP_no_middleware server r pool serviceName methodName s m
             HP Hroute Hs Hm Hh).
  rewrite poolGet_rest. unfold failed.
  served_cases;
    try (destruct (isResp (poolGet server pool).1.1) eqn:Hfl;
         eexists; (split; [reflexivity|]); first [exact Hfl | reflexivity]);
    eexists; split; reflexivity.
Qed.

(** The request metadata a dispatched request runs with: the first value of
    each of its headers, and under every other name whatever the context
    already held; its response metadata are those the context held. *)
Theorem dispatchCtx_metadata (server : Server) (r : Request) (s : service)
    (m : methodType) (serviceName methodName : string) (c : Ctx)
    (name : string) :
  ReqMetadata (dispatchCtx server r s m serviceName methodName c) !! name
  = match Header r !! name with
    | Some vals => Some (first vals)
    | None => ReqMetadata c !! name
    end
  /\ RespMetadata (dispatchCtx server r s m serviceName methodName c)
     = RespMetadata c.
Proof.
  split; [|reflexivity].
  change (ReqMetadata (dispatchCtx server r s m serviceName methodName c))
    with (copyHeader (Header r) (ReqMetadata c)).
  apply copyHeader_lookup.
Qed.

(** The headers an error response carries: the response metadata when the
    failure came after the method returned [nil], none otherwise. *)
Definition errorHeaders (enc : Encoder) (m : methodType) (body : string)
    (rc : Value) (c : Ctx) : list (string * string) :=
  match Decode enc body with
  | inl _ => []
  | inr argv =>
      let res := Func m rc (ReqMetadata c) (RespMetadata c) argv in
      match returned res with
      | Some _ => []
      | None => rangeMap (callRespMetadata res)
      end
  end.

(** When [serve] returns an error on a context whose flag is clear, the
    response has the error's declared status (500 if it declares none) and
    its message as body.  It carries no header of the server's, save that a
    failure to marshal or compress the reply comes after the response
    metadata have been copied into the header, which are then sent with the
    error. *)
Theorem ServeHTTP_error_response (server : Server) (r : Request)
    (pool : list Ctx) (serviceName methodName : string) (s : service)
    (m : methodType) (err : error) :
  Method r = "POST" ->
  PathRouter.route_spec (URLPath r) = Some (serviceName, methodName) ->
  serviceMap server !! serviceName = Some s ->
  svc_method s !! methodName = Some m ->
  svc_handlers s = [] ->
  isResp (poolGet server pool).1.1 = false ->
  let c := dispatchCtx server r s m serviceName methodName
             (poolGet server pool).1.1 in
  serveError snappy_Encode (srv_encoder server) m (Body r) (svc_rcvr s) c
  = Some err ->
  let o := ServeHTTP snappy_Encode callHandler server r pool in
  statusOf (out_trace o) = errorStatus err
  /\ bodyOf (out_trace o) = errorString err
  /\ headersOf (out_trace o)
     = errorHeaders (srv_encoder server) m (Body r) (svc_rcvr s) c.
Proof.
  intros HP Hroute Hs Hm Hh Hfl c Herr. cbv zeta.
  rewrite (ServeHTTP_no_middleware server r pool serviceName methodName s m
             HP Hroute Hs Hm Hh).
  rewrite poolGet_event. unfold failed, errorHeaders. rewrite Hfl.
  unfold serveError in Herr.
  change (snappy c) with (srv_snappy server) in Herr. fold c. revert Herr.
  served_cases; intros Herr; try discriminate; injection Herr as <-;
    cbn [out_trace Returned]; rewrite <- ?List.app_assoc;
    cbn [app statusOf bodyOf headersOf];
    rewrite ?statusOf_headers, ?bodyOf_headers, ?headersOf_headers;
    cbn [app statusOf bodyOf headersOf errorEvents];
    rewrite ?List.app_nil_r, ?GoStringFacts.app_empty_r;
    repeat split; reflexivity.
Qed.

(** When [serve] returns an error on a recycled context whose flag is
    still set, [ServeHTTP] writes neither status nor body and spawns no
    audit-log callback: the client receives an empty response with the
    default status 200. *)
Theorem ServeHTTP_stale_flag_drops_error (server : Server) (r : Request)
    (c0 : Ctx) (rest : list Ctx) (serviceName methodName : string)
    (s : service) (m : methodType) (err : error) :
  Method r = "POST" ->
  PathRouter.route_spec (URLPath r) = Some (serviceName, methodName) ->
  serviceMap server !! serviceName = Some s ->
  svc_method s !! methodName = Some m ->
  svc_handlers s = [] ->
  isResp c0 = true ->
  serveError snappy_Encode (srv_encoder server) m (Body r) (svc_rcvr s)
    (dispatchCtx server r s m serviceName methodName c0)
  = Some err ->
  let o := ServeHTTP snappy_Encode callHandler server r (c0 :: rest) in
  List.filter isWriteHeader (out_trace o) = []
  /\ List.filter isAuditEvent (out_trace o) = []
  /\ statusOf (out_trace o) = 200%Z
  /\ bodyOf (out_trace o) = "".
Proof.
  intros HP Hroute Hs Hm Hh Hfl Herr. cbv zeta.
  rewrite (ServeHTTP_no_middleware server r (c0 :: rest) serviceName
             methodName s m HP Hroute Hs Hm Hh).
  cbn [poolGet fst snd]. unfold failed. rewrite Hfl.
  unfold serveError in Herr.
  change (snappy (dispatchCtx server r s m serviceName methodName c0))
    with (srv_snappy server) in Herr.
  revert Herr.
  served_cases; intros Herr; try discriminate;
    cbn [out_trace Returned]; rewrite <- ?List.app_assoc;
    cbn [app statusOf bodyOf List.filter isWriteHeader isAuditEvent];
    rewrite ?List.filter_app, ?statusOf_headers, ?bodyOf_headers,
      ?audit_headers;
    rewrite ?filter_headers_none by reflexivity;
    repeat split; reflexivity.
Qed.

(** What a resolved request on a service without middleware does depends
    on the context it takes from the pool only through four of its fields:
    the two metadata maps, the response-sent flag and the audit-log
    callback.  Every other field is assigned before it is read. *)
Theorem ServeHTTP_reads_four_fields (server : Server) (r : Request)
    (c c' : Ctx) (rest : list Ctx) (serviceName methodName : string)
    (s : service) (m : methodType) :
  Method r = "POST" ->
  PathRouter.route_spec (URLPath r) = Some (serviceName, methodName) ->
  serviceMap server !! serviceName = Some s ->
  svc_method s !! methodName = Some m ->
  svc_handlers s = [] ->
  ReqMetadata c = ReqMetadata c' ->
  RespMetadata c = RespMetadata c' ->
  isResp c = isResp c' ->
  logError c = logError c' ->
  out_trace (ServeHTTP snappy_Encode callHandler server r (c :: rest))
  = out_trace (ServeHTTP snappy_Encode callHandler server r (c' :: rest)).
Proof.
  intros HP Hroute Hs Hm Hh Hq Hp Hf Hl.
  rewrite !(ServeHTTP_no_middleware server r _ serviceName methodName s m
              HP Hroute Hs Hm Hh).
  destruct c as [q p rv l f hs mt0 rq rc en sn sid snm mnm].
  destruct c' as [q' p' rv' l' f' hs' mt0' rq' rc' en' sn' sid' snm' mnm'].
  cbn in Hq, Hp, Hf, Hl. subst q' p' f' l'.
  cbn [poolGet fst snd]. unfold failed, errorEvents.
  cbn [ReqMetadata RespMetadata isResp logError ServiceID ServiceName
       MethodName dispatchCtx set_dispatch set_ReqMetadata].
  served_cases; try destruct f; reflexivity.
Qed.

End KujaMore.

(** ** Configuring a server *)

Module ServerConfig.

Section Config.

Context {Value Handler LogErrorFunc RegState : Type}.

Local Abbreviation Server := (@Server Value Handler LogErrorFunc RegState).
Local Abbreviation encoderT := (@Encoder Value).
Local Abbreviation registryT := (@Registry RegState).

(** [NewServer()]; the JSON codec [json.NewEncoder()] builds and the
    default callback [defaulLogErr] are given. *)
Definition NewServer (jsonEncoder : encoderT) (defaulLogErr : LogErrorFunc)
    : Server :=
  {| middleware := [];
     serviceMap := ∅;
     srv_encoder := jsonEncoder;
     srv_snappy := false;
     srv_logError := defaulLogErr;
     registry := None |}.



(** [server.Registry(r)]; [r] may be [nil]. *)
Definition Registry (r : option registryT) (server : Server) : Server :=
  {| middleware := middleware server;
     serviceMap := serviceMap server;
     srv_encoder := srv_encoder server;
     srv_snappy := srv_snappy server;
     srv_logError := srv_logError server;
     registry := r |}.

(** [server.Encoder(enc)] *)
Definition Encoder (enc : encoderT) (server : Server) : Server :=
  {| middleware := middleware server;
     serviceMap := serviceMap server;
     srv_encoder := enc;
     srv_snappy := srv_snappy server;
     srv_logError := srv_logError server;
     registry := registry server |}.

(** [server.LogError(fn)] *)
Definition LogError (fn : LogErrorFunc) (server : Server) : Server :=
  {| middleware := middleware server;
     serviceMap := serviceMap server;
     srv_encoder := srv_encoder server;
     srv_snappy := srv_snappy server;
     srv_logError := fn;
     registry := registry server |}.

End Config.

End ServerConfig.

Section ConfigFacts.

Context {Value Handler LogErrorFunc RegState : Type}.
Variable snappy_Encode : string -> error + string.
Variable callHandler :
  Handler -> @Request -> @M Value Handler LogErrorFunc (option error).

Local Abbreviation Ctx := (@Ctx Value Handler LogErrorFunc).
Local Abbreviation event := (@event Value LogErrorFunc).
Local Abbreviation Server := (@Server Value Handler LogErrorFunc RegState).

(** A server just made by [NewServer] has no service and no discovery
    collaborator: every POST request is answered 404, as a path without
    service and method or as an unknown service, nothing is decoded or
    called, and [start] and [stop] do nothing. *)
Theorem NewServer_serves_nothing (jsonEncoder : Encoder)
    (defaulLogErr : LogErrorFunc) (r : Request) (pool : list Ctx)
    (addr : string) (st : RegState) :
  Method r = "POST" ->
  let server : Server := ServerConfig.NewServer jsonEncoder defaulLogErr in
  let o := ServeHTTP snappy_Encode callHandler server r pool in
  statusOf (out_trace o) = 404%Z
  /\ bodyOf (out_trace o)
     = match PathRouter.route_spec (URLPath r) with
       | None => "rpc: can't find service or method"
       | Some (serviceName, _) => "rpc: can't find service " ++ serviceName
       end
  /\ List.filter isDispatchEvent (out_trace o) = []
  /\ start server addr st = ([], st)
  /\ stop server st = ([], st).
Proof.
  intros HP. cbv zeta.
  set (server := ServerConfig.NewServer jsonEncoder defaulLogErr : Server).
  assert (Herr : routingError server r
                 = Some match PathRouter.route_spec (URLPath r) with
                        | None => "rpc: can't find service or method"
                        | Some (sn, _) => "rpc: can't find service " ++ sn
                        end).
  { unfold routingError.
    destruct (PathRouter.route_spec (URLPath r)) as [[sn mn]|]; [|reflexivity].
    cbn [server ServerConfig.NewServer serviceMap]. now rewrite lookup_empty. }
  rewrite (ServeHTTP_unresolved snappy_Encode callHandler server r pool _
             HP Herr).
  rewrite poolGet_event.
  destruct (PathRouter.route_spec (URLPath r)) as [[sn mn]|];
    cbn [out_trace Returned statusOf bodyOf List.filter isDispatchEvent];
    rewrite ?GoStringFacts.app_empty_r; repeat split.
Qed.


Ltac served_cases :=
  cbv zeta;
  destruct (Decode _ _) as [?e | ?argv];
  [ | destruct (returned _) as [?err|];
      [ | destruct (srv_snappy _);
          [ destruct (Marshal _ _) as [?err | ?data];
            [ | destruct (snappy_Encode _) as [?err | ?z] ]
          | ] ] ].

(** A context keeps the audit-log callback it was made with.  For a
    resolved POST request on a service without middleware, served after
    [LogError(fn)]: the context taken from the pool holds the callback of
    the pooled context, or [fn] when the pool is empty and [pool.New] makes
    it; the context put back at the head of the pool holds that same
    callback; the request spawns at most one audit-log callback and, when
    it does, it is the context's callback, called with the service's id,
    the names parsed from the path, the error's status and the error.  On
    an empty pool a request for which [serve] returns an error reports to
    [fn]. *)
Theorem callback_fixed_at_creation (server : Server) (fn : LogErrorFunc)
    (r : Request) (pool : list Ctx) (serviceName methodName : string)
    (s : service) (m : methodType) :
  Method r = "POST" ->
  PathRouter.route_spec (URLPath r) = Some (serviceName, methodName) ->
  serviceMap server !! serviceName = Some s ->
  svc_method s !! methodName = Some m ->
  svc_handlers s = [] ->
  let server' := ServerConfig.LogError fn server in
  let c0 := (poolGet server' pool).1.1 in
  let o := ServeHTTP snappy_Encode callHandler server' r pool in
  logError c0 = match pool with
                | c :: _ => logError c
                | [] => fn
                end
  /\ (exists c' : Ctx, out_pool o = c' :: tail pool
                       /\ logError c' = logError c0)
  /\ (List.filter isAuditEvent (out_trace o) = []
      \/ exists err : error,
           List.filter isAuditEvent (out_trace o)
           = [EvGoLogError (logError c0) (svc_id s) serviceName methodName
                (errorStatus err) err])
  /\ (pool = [] ->
      forall err : error,
        serveError snappy_Encode (srv_encoder server) m (Body r) (svc_rcvr s)
          (dispatchCtx server r s m serviceName methodName (poolNew server'))
        = Some err ->
        List.filter isAuditEvent (out_trace o)
        = [EvGoLogError fn (svc_id s) serviceName methodName
             (errorStatus err) err]).
Proof.
  intros HP Hroute Hs Hm Hh server' c0 o.
  assert (Hrun := ServeHTTP_no_middleware snappy_Encode callHandler server' r
                    pool serviceName methodName s m HP Hroute Hs Hm Hh).
  fold o in Hrun. cbv zeta in Hrun. rewrite poolGet_rest, poolGet_event in Hrun.
  fold c0 in Hrun. unfold failed in Hrun.
  split; [unfold c0; now destruct pool|]. split; [|split].
  - rewrite Hrun.
    served_cases;
      try (destruct (isResp c0); eexists; split; reflexivity);
      eexists; split; reflexivity.
  - rewrite Hrun.
    served_cases;
      try (destruct (isResp c0);
           [ left | right; eexists ];
           cbn [out_trace Returned]; rewrite <- ?List.app_assoc;
           cbn [app List.filter isAuditEvent errorEvents];
           rewrite ?List.filter_app, ?audit_headers; reflexivity);
      left; unfold replyEvents;
      cbn [out_trace Returned]; rewrite <- ?List.app_assoc;
      cbn [app List.filter isAuditEvent];
      rewrite ?List.filter_app, ?audit_headers;
      cbn [app List.filter isAuditEvent];
      rewrite ?List.filter_app, ?audit_writes; reflexivity.
  - intros Hpool err Herr. rewrite Hrun. clear Hrun. unfold c0.
    rewrite Hpool.
    cbn [poolGet fst snd].
    change (isResp (poolNew server')) with false. cbn iota.
    unfold serveError in Herr.
    change (snappy (dispatchCtx server r s m serviceName methodName
                      (poolNew server')))
      with (srv_snappy server') in Herr.
    change (dispatchCtx server r s m serviceName methodName (poolNew server'))
      with (dispatchCtx server' r s m serviceName methodName (poolNew server'))
      in Herr.
    change (srv_encoder server) with (srv_encoder server') in Herr.
    revert Herr.
    served_cases; intros Herr; try discriminate; injection Herr as <-;
      cbn [out_trace Returned]; rewrite <- ?List.app_assoc;
      cbn [app List.filter isAuditEvent errorEvents];
      rewrite ?List.filter_app, ?audit_headers; reflexivity.
Qed.

End ConfigFacts.

(** ** More on the gogoproto codec *)

Module GoGoProtoMore.
Import GoGoProto.

Arguments Return {A} a.
Arguments Panicked {A}.

Section Coherence.

Context {Message Other ProtoErr IOErr : Type}.
Variable proto_Marshal :
  option Message -> @outcome (ProtoErr + string).
Variable proto_Unmarshal :
  string -> option Message -> @outcome (option ProtoErr).

Local Abbreviation any := (@any Message Other).
Local Abbreviation Writer := (@Writer IOErr).

(** The stream and the byte forms of the codec agree.  [Encode] hands the
    writer, in one [Write], exactly the bytes [Marshal] returns for the
    same value, and reports the writer's error; when [Marshal] reports an
    error, [Encode] reports that error and writes nothing.  [Decode] on a
    reader does what [Unmarshal] does on the reader's content. *)
Theorem Encode_writes_Marshal (w : Writer) (v : any) (input : string) :
  match (Marshal proto_Marshal v).2 with
  | Return (data, None) =>
      Encode (ProtoErr := ProtoErr) proto_Marshal w v
      = (((Marshal proto_Marshal v).1 ++ [Wrote data])%list,
         Return (WriteError <$> w data))
  | Return (_, Some err) =>
      Encode proto_Marshal w v
      = ((Marshal proto_Marshal v).1, Return (Some err))
  | Panicked =>
      Encode proto_Marshal w v = ((Marshal proto_Marshal v).1, Panicked)
  end
  /\ Decode (IOErr := IOErr) proto_Unmarshal input v
     = Unmarshal proto_Unmarshal input v.
Proof.
  split; [|reflexivity]. unfold Marshal, Encode.
  destruct (assertMessage v) as [pb ok].
  now destruct (proto_Marshal pb) as [[err | data] |].
Qed.

End Coherence.

End GoGoProtoMore.

(** ** The further facts on the concrete server *)

Module DemoMore.
Import Demo DemoFacts.

Lemma getServiceMethod_of_path_witness :
  PathRouter.noSlash "Calc" = true
  /\ PathRouter.getServiceMethod "/Calc/Echo/" = ("Calc", "Echo")
  /\ PathRouter.getServiceMethod "/Calc/Echo" = ("Calc", "Echo").
Proof.
  assert (H : PathRouter.noSlash "Calc" = true) by reflexivity.
  split; [exact H|].
  destruct (PathRouterMore.getServiceMethod_of_path "Calc" "Echo" H)
    as [H1 H2].
  split; [exact H1|]. apply H2; [discriminate | reflexivity].
Defined.

Lemma hostPort_of_host_port_witness :
  LifecycleFacts.noColon "8080" = true
  /\ hostPort "[::1]:8080" = ("[::1]", "8080").
Proof.
  assert (H : LifecycleFacts.noColon "8080" = true) by reflexivity.
  split; [exact H|].
  exact (LifecycleMore.hostPort_of_host_port "[::1]" "8080" H).
Defined.

Lemma start_stop_trace_witness :
  registry (server false) = Some flaky
  /\ (start (server false) ":8080" 0).1
     = concat (zip_with (LifecycleMore.registerBlock "" "8080" ":8080")
                 [Calc; Auth] [None; Some (PlainError "registry down")]).
Proof.
  assert (H : registry (server false) = Some flaky) by reflexivity.
  split; [exact H|].
  exact (proj1 (LifecycleMore.start_stop_trace (server false) flaky ":8080"
                  0 0 H)).
Defined.

Lemma serve_decode_close_call_witness :
  let c := firstCtx false postDeny "Deny" Deny in
  mt c = Some Deny
  /\ exists rest,
       resultTrace (serve snappyEncode c [])
       = ([EvDecode "x"; EvBodyClose] ++ rest)%list
       /\ List.filter isCall rest = [EvCall "x"].
Proof.
  cbv zeta. split; [reflexivity|].
  destruct (serve_decode_close_call snappyEncode
              (firstCtx false postDeny "Deny" Deny) [] Deny postDeny codec
              eq_refl eq_refl eq_refl)
    as (rest & Htr & _ & _ & Hcall).
  exists rest. split; [exact Htr | exact Hcall].
Defined.

Lemma serve_keeps_fields_witness :
  let c := firstCtx false postDeny "Deny" Deny in
  let c' := set_called (Func Deny "calc" (ReqMetadata c) (RespMetadata c) "x")
              c in
  serve snappyEncode c []
  = Ok (Some (Error 403 "forbidden")) c' [EvDecode "x"; EvBodyClose; EvCall "x"]
  /\ isResp c' = isResp c.
Proof.
  cbv zeta.
  assert (H : serve snappyEncode (firstCtx false postDeny "Deny" Deny) []
              = Ok (Some (Error 403 "forbidden"))
                  (set_called
                     (Func Deny "calc"
                        (ReqMetadata (firstCtx false postDeny "Deny" Deny))
                        (RespMetadata (firstCtx false postDeny "Deny" Deny))
                        "x")
                     (firstCtx false postDeny "Deny" Deny))
                  [EvDecode "x"; EvBodyClose; EvCall "x"])
    by reflexivity.
  split; [exact H|].
  exact (proj2 (serve_keeps_fields snappyEncode _ _ _ _ _ H)).
Defined.

Lemma no_middleware (compress : bool) (name : string)
    (s : @service Value Handler) :
  serviceMap (server compress) !! name = Some s -> svc_handlers s = [].
Proof.
  intros H. apply elem_of_map_to_list in H.
  assert (E : map_to_list (serviceMap (server compress))
              = [("Calc", Calc); ("Auth", Auth)])
    by (vm_compute; reflexivity).
  rewrite E in H.
  apply list_elem_of_In in H. cbn [In] in H.
  destruct H as [[= <- <-] | [[= <- <-] | []]]; reflexivity.
Defined.

Lemma ServeHTTP_one_WriteHeader_witness :
  (forall name s,
     serviceMap (server false) !! name = Some s -> svc_handlers s = [])
  /\ length (List.filter isWriteHeader (out_trace (handle false postDeny [])))
     = 1.
Proof.
  split; [exact (no_middleware false)|].
  exact (proj2 (proj2 (ServeHTTP_one_WriteHeader snappyEncode callHandler
                         (server false) postDeny [] (no_middleware false)))
           eq_refl).
Defined.

Lemma resolved_Deny :
  Method postDeny = "POST"
  /\ PathRouter.route_spec (URLPath postDeny) = Some ("Calc", "Deny")
  /\ serviceMap (server false) !! "Calc" = Some Calc
  /\ svc_method Calc !! "Deny" = Some Deny
  /\ svc_handlers Calc = [].
Proof. repeat split; vm_compute; reflexivity. Defined.

Lemma ServeHTTP_puts_back_flagged_witness :
  (Method postDeny = "POST"
   /\ PathRouter.route_spec (URLPath postDeny) = Some ("Calc", "Deny")
   /\ serviceMap (server false) !! "Calc" = Some Calc
   /\ svc_method Calc !! "Deny" = Some Deny
   /\ svc_handlers Calc = [])
  /\ exists c', out_pool (handle false postDeny []) = [c']
                /\ isResp c' = true.
Proof.
  split; [exact resolved_Deny|].
  destruct resolved_Deny as (H1 & H2 & H3 & H4 & H5).
  exact (ServeHTTP_puts_back_flagged snappyEncode callHandler (server false)
           postDeny [] "Calc" "Deny" Calc Deny H1 H2 H3 H4 H5).
Defined.

Lemma ServeHTTP_error_response_witness :
  isResp (poolGet (server false) []).1.1 = false
  /\ statusOf (out_trace (handle false postDeny [])) = 403%Z
  /\ bodyOf (out_trace (handle false postDeny [])) = "forbidden".
Proof.
  split; [reflexivity|].
  destruct resolved_Deny as (H1 & H2 & H3 & H4 & H5).
  destruct (ServeHTTP_error_response snappyEncode callHandler (server false)
              postDeny [] "Calc" "Deny" Calc Deny (Error 403 "forbidden")
              H1 H2 H3 H4 H5 eq_refl eq_refl) as (Hs & Hb & _).
  split; [exact Hs | exact Hb].
Defined.

(** The context a first request has put back. *)
Definition usedCtx : @Ctx Value Handler LogErrorFunc :=
  set_isResp true (poolNew (server false)).

Lemma ServeHTTP_stale_flag_drops_error_witness :
  isResp usedCtx = true
  /\ statusOf (out_trace (handle false postDeny [usedCtx])) = 200%Z
  /\ bodyOf (out_trace (handle false postDeny [usedCtx])) = "".
Proof.
  split; [reflexivity|].
  destruct resolved_Deny as (H1 & H2 & H3 & H4 & H5).
  destruct (ServeHTTP_stale_flag_drops_error snappyEncode callHandler
              (server false) postDeny usedCtx [] "Calc" "Deny" Calc Deny
              (Error 403 "forbidden") H1 H2 H3 H4 H5 eq_refl eq_refl)
    as (_ & _ & Hs & Hb).
  split; [exact Hs | exact Hb].
Defined.

(** A context that differs from a new one in the fields a request
    overwrites. *)
Definition otherCtx : @Ctx Value Handler LogErrorFunc :=
  set_dispatch (server true) Auth Whoami postWhoami "Auth" "Whoami"
    (poolNew (server false)).

Lemma ServeHTTP_reads_four_fields_witness :
  (ReqMetadata otherCtx = ReqMetadata (poolNew (server false))
   /\ RespMetadata otherCtx = RespMetadata (poolNew (server false))
   /\ isResp otherCtx = isResp (poolNew (server false))
   /\ logError otherCtx = logError (poolNew (server false)))
  /\ out_trace (handle false postDeny [otherCtx])
     = out_trace (handle false postDeny [poolNew (server false)]).
Proof.
  split; [repeat split|].
  destruct resolved_Deny as (H1 & H2 & H3 & H4 & H5).
  exact (ServeHTTP_reads_four_fields snappyEncode callHandler (server false)
           postDeny otherCtx (poolNew (server false)) [] "Calc" "Deny" Calc
           Deny H1 H2 H3 H4 H5 eq_refl eq_refl eq_refl eq_refl).
Defined.

Lemma NewServer_serves_nothing_witness :
  Method postEcho = "POST"
  /\ statusOf
       (out_trace
          (ServeHTTP snappyEncode callHandler
             (ServerConfig.NewServer (RegState := RegState) codec defaulLogErr)
             postEcho []))
     = 404%Z.
Proof.
  assert (H : Method postEcho = "POST") by reflexivity.
  split; [exact H|].
  exact (proj1 (NewServer_serves_nothing snappyEncode callHandler codec
                  defaulLogErr postEcho [] ":8080" 0 H)).
Defined.

End DemoMore.

(** ** A server whose audit-log callback is replaced *)

Module DemoCallback.
Import Demo DemoFacts.

(** Two audit-log callbacks that can be told apart. *)
Inductive Callback : Type := firstLog | secondLog.

Definition callHandler (h : Handler) (r : Request)
    : @M Value Handler Callback (option error) :=
  match h with end.

(** The server as [NewServer] and [Service] leave it, with the callback
    [firstLog]. *)
Definition early : @Server Value Handler Callback RegState := {|
  middleware := [];
  serviceMap := list_to_map [("Calc", Calc); ("Auth", Auth)];
  srv_encoder := codec;
  srv_snappy := false;
  srv_logError := firstLog;
  registry := Some flaky;
|}.

(** The same server after [LogError(secondLog)]. *)
Definition later : @Server Value Handler Callback RegState :=
  ServerConfig.LogError secondLog early.

(** The pool after [early] has served one request to [Calc.Deny] from an
    empty pool. *)
Definition recycled : list (@Ctx Value Handler Callback) :=
  out_pool (ServeHTTP snappyEncode callHandler early postDeny []).

Lemma resolved_Deny_early :
  Method postDeny = "POST"
  /\ PathRouter.route_spec (URLPath postDeny) = Some ("Calc", "Deny")
  /\ serviceMap early !! "Calc" = Some Calc
  /\ svc_method Calc !! "Deny" = Some Deny
  /\ svc_handlers Calc = [].
Proof. repeat split; vm_compute; reflexivity. Defined.

(** After [LogError(secondLog)], a request served with the context the
    earlier request put back leaves in the pool a context that still holds
    [firstLog]; the same request served from an empty pool reports to
    [secondLog]. *)
Lemma callback_fixed_at_creation_witness :
  (Method postDeny = "POST"
   /\ PathRouter.route_spec (URLPath postDeny) = Some ("Calc", "Deny")
   /\ serviceMap early !! "Calc" = Some Calc
   /\ svc_method Calc !! "Deny" = Some Deny
   /\ svc_handlers Calc = [])
  /\ (exists c' : @Ctx Value Handler Callback,
        out_pool (ServeHTTP snappyEncode callHandler later postDeny recycled)
        = [c']
        /\ logError c' = firstLog)
  /\ List.filter isAuditEvent
       (out_trace (ServeHTTP snappyEncode callHandler later postDeny []))
     = [EvGoLogError secondLog "calc-1" "Calc" "Deny" 403
          (Error 403 "forbidden")].
Proof.
  split; [exact resolved_Deny_early|].
  destruct resolved_Deny_early as (H1 & H2 & H3 & H4 & H5).
  split.
  - destruct (callback_fixed_at_creation snappyEncode callHandler early
                secondLog postDeny recycled "Calc" "Deny" Calc Deny
                H1 H2 H3 H4 H5) as (Hc0 & (c' & Hpool & Hlog) & _).
    exists c'. split; [exact Hpool|].
    rewrite Hlog. exact Hc0.
  - destruct (callback_fixed_at_creation snappyEncode callHandler early
                secondLog postDeny [] "Calc" "Deny" Calc Deny
                H1 H2 H3 H4 H5) as (_ & _ & _ & Hnew).
    exact (Hnew eq_refl (Error 403 "forbidden") eq_refl).
Defined.

End DemoCallback.

(** ** Replies, and requests in sequence *)

Section KujaSequence.

Context {Value Handler LogErrorFunc RegState : Type}.
Variable snappy_Encode : string -> error + string.
Variable callHandler :
  Handler -> @Request -> @M Value Handler LogErrorFunc (option error).

Local Abbreviation Ctx := (@Ctx Value Handler LogErrorFunc).
Local Abbreviation event := (@event Value LogErrorFunc).
Local Abbreviation Server := (@Server Value Handler LogErrorFunc RegState).

Lemma filter_headers_all (p : event -> bool) (l : list (string * string)) :
  (forall k v, p (EvHeaderSet k v) = true) ->
  List.filter p (map headerEvent l) = map headerEvent l.
Proof.
  intros Hp. induction l as [|[k v] l IH]; [reflexivity|].
  cbn [map List.filter].
  rewrite (Hp k v : p (headerEvent (k, v)) = true). now rewrite IH.
Qed.

Lemma bodyOf_writes_app (chunks : list string) (tr : list event) :
  bodyOf (map EvWrite chunks ++ tr) = concatChunks chunks ++ bodyOf tr.
Proof.
  induction chunks as [|x l IH]; [reflexivity|].
  cbn [map app bodyOf concatChunks fold_right]. rewrite IH.
  fold (concatChunks l). now rewrite GoStringFacts.app_assoc.
Qed.

Lemma audit_writes_app (chunks : list string) (tr : list event) :
  List.filter isAuditEvent (map EvWrite chunks ++ tr)
  = List.filter isAuditEvent tr.
Proof. now rewrite List.filter_app, audit_writes. Qed.

(** A reply is written whatever the state of the pooled context: when the
    method returns [nil] (and, with compression, the reply is marshaled and
    compressed), the response has status 200, the response metadata as
    headers (with [Snappy: true] after them when compression is enabled),
    and as body the compressed reply or what the codec streams; no
    audit-log callback is spawned, also when the stream encoder fails. *)
Theorem ServeHTTP_success_response (server : Server) (r : Request)
    (pool : list Ctx) (serviceName methodName : string) (s : service)
    (m : methodType) (argv : Value) (data z : string) :
  Method r = "POST" ->
  PathRouter.route_spec (URLPath r) = Some (serviceName, methodName) ->
  serviceMap server !! serviceName = Some s ->
  svc_method s !! methodName = Some m ->
  svc_handlers s = [] ->
  Decode (srv_encoder server) (Body r) = inr argv ->
  let c := dispatchCtx server r s m serviceName methodName
             (poolGet server pool).1.1 in
  let res := Func m (svc_rcvr s) (ReqMetadata c) (RespMetadata c) argv in
  returned res = None ->
  (srv_snappy server = true ->
   Marshal (srv_encoder server) (replyv res) = inr data
   /\ snappy_Encode data = inr z) ->
  let o := ServeHTTP snappy_Encode callHandler server r pool in
  statusOf (out_trace o) = 200%Z
  /\ headersOf (out_trace o)
     = (rangeMap (callRespMetadata res)
        ++ (if srv_snappy server then [("Snappy", "true")] else []))%list
  /\ bodyOf (out_trace o)
     = (if srv_snappy server then z
        else concatChunks (Encode (srv_encoder server) (replyv res)).1)
  /\ List.filter isAuditEvent (out_trace o) = []
  /\ out_panicked o = false.
Proof.
  intros HP Hroute Hs Hm Hh Hdec c res Hret Hsn. cbv zeta.
  rewrite (ServeHTTP_no_middleware snappy_Encode callHandler server r pool
             serviceName methodName s m HP Hroute Hs Hm Hh).
  cbv zeta. rewrite Hdec. fold c. fold res. rewrite Hret.
  rewrite poolGet_event. unfold replyEvents.
  destruct (srv_snappy server).
  - destruct (Hsn eq_refl) as [-> ->].
    cbn [out_trace out_panicked Returned]. rewrite <- !List.app_assoc.
    cbn [app statusOf bodyOf headersOf List.filter isAuditEvent].
    rewrite statusOf_headers, bodyOf_headers, headersOf_headers,
      List.filter_app, audit_headers.
    cbn [app statusOf bodyOf headersOf List.filter isAuditEvent].
    now rewrite GoStringFacts.app_empty_r.
  - cbn [out_trace out_panicked Returned]. rewrite <- !List.app_assoc.
    cbn [app statusOf bodyOf headersOf List.filter isAuditEvent].
    rewrite statusOf_headers, bodyOf_headers, headersOf_headers,
      List.filter_app, audit_headers.
    cbn [app statusOf bodyOf headersOf List.filter isAuditEvent].
    rewrite bodyOf_writes_app, audit_writes_app.
    cbn [bodyOf List.filter isAuditEvent].
    now rewrite GoStringFacts.app_empty_r, List.app_nil_r.
Qed.

Ltac served_cases :=
  cbv zeta;
  destruct (Decode _ _) as [?e | ?argv];
  [ | destruct (returned _) as [?err|];
      [ | destruct (srv_snappy _);
          [ destruct (Marshal _ _) as [?err | ?data];
            [ | destruct (snappy_Encode _) as [?err | ?z] ]
          | ] ] ].

(** Two resolved requests served one after the other by one worker, on
    services without middleware: if the second fails in [serve] whatever
    metadata its context holds, its error is dropped.  The first request,
    failed or not, has put the context back with the flag set, so the
    second writes neither status nor body and spawns no audit-log
    callback. *)
Theorem second_error_is_dropped (server : Server) (r1 r2 : Request)
    (pool : list Ctx) (name1 method1 name2 method2 : string)
    (s1 s2 : service) (m1 m2 : methodType) :
  Method r1 = "POST" ->
  PathRouter.route_spec (URLPath r1) = Some (name1, method1) ->
  serviceMap server !! name1 = Some s1 ->
  svc_method s1 !! method1 = Some m1 ->
  svc_handlers s1 = [] ->
  Method r2 = "POST" ->
  PathRouter.route_spec (URLPath r2) = Some (name2, method2) ->
  serviceMap server !! name2 = Some s2 ->
  svc_method s2 !! method2 = Some m2 ->
  svc_handlers s2 = [] ->
  (forall c : Ctx,
     serveError snappy_Encode (srv_encoder server) m2 (Body r2) (svc_rcvr s2)
       (dispatchCtx server r2 s2 m2 name2 method2 c) <> None) ->
  exists o1 o2 : Outcome,
    serveAll snappy_Encode callHandler server [r1; r2] pool = [o1; o2]
    /\ List.filter isWriterEvent (out_trace o2)
       = List.filter isHeaderSet (out_trace o2)
    /\ statusOf (out_trace o2) = 200%Z
    /\ bodyOf (out_trace o2) = ""
    /\ List.filter isAuditEvent (out_trace o2) = [].
Proof.
  intros HP1 Hr1 Hs1 Hm1 Hh1 HP2 Hr2 Hs2 Hm2 Hh2 Hfail.
  cbn [serveAll]. eexists _, _. split; [reflexivity|].
  assert (Hput : exists c' rest,
            out_pool (ServeHTTP snappy_Encode callHandler server r1 pool)
            = c' :: rest /\ isResp c' = true).
  { rewrite (ServeHTTP_no_middleware snappy_Encode callHandler server r1 pool
               name1 method1 s1 m1 HP1 Hr1 Hs1 Hm1 Hh1).
    unfold failed.
    served_cases;
      try (destruct (isResp (poolGet server pool).1.1) eqn:Hfl;
           eexists _, _; (split; [reflexivity|]);
           first [exact Hfl | reflexivity]);
      eexists _, _; split; reflexivity. }
  destruct Hput as (c' & rest & -> & Hfl).
  rewrite (ServeHTTP_no_middleware snappy_Encode callHandler server r2
             (c' :: rest) name2 method2 s2 m2 HP2 Hr2 Hs2 Hm2 Hh2).
  cbn [poolGet fst snd]. unfold failed. rewrite Hfl.
  specialize (Hfail c'). unfold serveError in Hfail.
  change (snappy (dispatchCtx server r2 s2 m2 name2 method2 c'))
    with (srv_snappy server) in Hfail.
  revert Hfail.
  served_cases; intros Hfail; try congruence;
    cbn [out_trace Returned]; rewrite <- ?List.app_assoc;
    cbn [app statusOf bodyOf List.filter isWriterEvent isHeaderSet
         isAuditEvent];
    rewrite ?List.filter_app, ?statusOf_headers, ?bodyOf_headers,
      ?audit_headers, ?headerSet_headers;
    rewrite ?(filter_headers_all isWriterEvent) by reflexivity;
    repeat split; reflexivity.
Qed.

End KujaSequence.

Module DemoSequence.
Import Demo DemoFacts DemoMore.

Lemma resolved_Echo (compress : bool) :
  Method postEcho = "POST"
  /\ PathRouter.route_spec (URLPath postEcho) = Some ("Calc", "Echo")
  /\ serviceMap (server compress) !! "Calc" = Some Calc
  /\ svc_method Calc !! "Echo" = Some Echo
  /\ svc_handlers Calc = [].
Proof. repeat split; vm_compute; reflexivity. Defined.

Lemma ServeHTTP_success_response_witness :
  Decode (srv_encoder (server true)) (Body postEcho) = inr "hi"
  /\ statusOf (out_trace (handle true postEcho [usedCtx])) = 200%Z
  /\ bodyOf (out_trace (handle true postEcho [usedCtx])) = "snappy(hi)".
Proof.
  split; [reflexivity|].
  destruct (resolved_Echo true) as (H1 & H2 & H3 & H4 & H5).
  destruct (ServeHTTP_success_response snappyEncode callHandler (server true)
              postEcho [usedCtx] "Calc" "Echo" Calc Echo "hi" "hi"
              "snappy(hi)" H1 H2 H3 H4 H5 eq_refl eq_refl
              (fun _ => conj eq_refl eq_refl))
    as (Hs & _ & Hb & _).
  split; [exact Hs | exact Hb].
Defined.

Lemma Deny_always_fails (c : @Ctx Value Handler LogErrorFunc) :
  serveError snappyEncode (srv_encoder (server false)) Deny (Body postDeny)
    (svc_rcvr Calc) (dispatchCtx (server false) postDeny Calc Deny "Calc"
                       "Deny" c)
  <> None.
Proof. discriminate. Defined.

Lemma second_error_is_dropped_witness :
  exists o1 o2,
    handleAll false [postEcho; postDeny] [] = [o1; o2]
    /\ statusOf (out_trace o2) = 200%Z
    /\ bodyOf (out_trace o2) = "".
Proof.
  destruct (resolved_Echo false) as (H1 & H2 & H3 & H4 & H5).
  destruct resolved_Deny as (K1 & K2 & K3 & K4 & K5).
  destruct (second_error_is_dropped snappyEncode callHandler (server false)
              postEcho postDeny [] "Calc" "Echo" "Calc" "Deny" Calc Calc
              Echo Deny H1 H2 H3 H4 H5 K1 K2 K3 K4 K5 Deny_always_fails)
    as (o1 & o2 & Hall & _ & Hs & Hb & _).
  exists o1, o2. split; [exact Hall|]. split; [exact Hs | exact Hb].
Defined.

End DemoSequence.
